(** * Media-Gen: the generation-and-persistence workflow

  A shallow embedding of the image pipeline ([generateImage] of
  api/imageApi.ts with the serverless [handler] behind it), of the
  history and id lookups of the Prompt / Image / Video contexts and of
  the polling loop [pollVideoStatus] of the Video context, followed by
  the properties the specification states about them.

  Conventions of the embedding:
  - a Promise that resolves or rejects is a [Result]: [Ok v] or
    [Throw e];
  - the Supabase service is a [Backend] value (its tables, and the
    faults it answers requests with); code that talks to it is written
    in state-passing style;
  - timestamps ([TIMESTAMPTZ], [Date.now()]) are integers counting
    milliseconds. *)

From Stdlib Require Import Ascii ZArith.
From stdpp Require Import base list strings gmap pretty sorting.

Local Open Scope string_scope.
Local Open Scope list_scope.

(** ** JavaScript values *)

Module Js.

(** An [Error] object: only its message is ever read. *)
Record Error := MkError { err_message : string }.

(** The outcome of awaiting a Promise. *)
Inductive Result (A : Type) : Type :=
| Ok (a : A)
| Throw (e : Error).
Global Arguments Ok {A} a.
Global Arguments Throw {A} e.

(** [String.prototype.trim] strips the code points that ECMAScript calls
    WhiteSpace or LineTerminator: TAB, LF, VT, FF, CR, SP, U+00A0, U+FEFF,
    U+2028, U+2029 and the space separators U+1680, U+2000 to U+200A,
    U+202F, U+205F and U+3000. A [string] holds the UTF-8 bytes of its
    text, so each of them is listed as the bytes of its encoding. *)
Definition utf8 (bytes : list nat) : string :=
  String.string_of_list_ascii (ascii_of_nat <$> bytes).

Definition white_space : list string :=
  utf8 <$>
    [ [9]; [10]; [11]; [12]; [13]; [32];
      [194; 160];                                         (* U+00A0 *)
      [225; 154; 128];                                    (* U+1680 *)
      [226; 128; 128]; [226; 128; 129]; [226; 128; 130];  (* U+2000 ... *)
      [226; 128; 131]; [226; 128; 132]; [226; 128; 133];
      [226; 128; 134]; [226; 128; 135]; [226; 128; 136];
      [226; 128; 137]; [226; 128; 138];                   (* ... U+200A *)
      [226; 128; 168]; [226; 128; 169];                   (* U+2028, U+2029 *)
      [226; 128; 175];                                    (* U+202F *)
      [226; 129; 159];                                    (* U+205F *)
      [227; 128; 128];                                    (* U+3000 *)
      [239; 187; 191] ].                                  (* U+FEFF *)

(** What follows [p] in [s], when [s] starts with [p]. *)
Fixpoint strip_prefix (p s : string) : option string :=
  match p, s with
  | EmptyString, _ => Some s
  | String a p', String b s' =>
      if Ascii.eqb a b then strip_prefix p' s' else None
  | String _ _, EmptyString => None
  end.

(** What follows the first character of [s], when it is one of [table]. *)
Fixpoint skip_one (table : list string) (s : string) : option string :=
  match table with
  | [] => None
  | c :: table' =>
      match strip_prefix c s with
      | Some s' => Some s'
      | None => skip_one table' s
      end
  end.

(** [s] without its leading characters of [table]; every character
    skipped takes a byte at least, so the length of [s] is fuel enough. *)
Fixpoint skip_all (table : list string) (fuel : nat) (s : string) : string :=
  match fuel with
  | O => s
  | S fuel' =>
      match skip_one table s with
      | Some s' => skip_all table fuel' s'
      | None => s
      end
  end.

Definition trimStart (s : string) : string :=
  skip_all white_space (String.length s) s.

Definition trimEnd (s : string) : string :=
  String.rev
    (skip_all (String.rev <$> white_space) (String.length s) (String.rev s)).

Definition trim (s : string) : string := trimEnd (trimStart s).

(** Truthiness of a string: [!s] holds exactly for the empty string. *)
Definition falsy (s : string) : bool := bool_decide (s = "").

(** [x || d] on a nullable string. *)
Definition or_default (x : option string) (d : string) : string :=
  match x with
  | Some s => if falsy s then d else s
  | None => d
  end.

End Js.

Export Js.

(** ** The database schema (db/schema.sql, database.types.ts) *)

Module Db.

Inductive prompt_type := TImage | TVideo.
Inductive prompt_status := Pending | Processing | Completed | Failed.
Inductive video_status := Queued | Running | Succeeded | VFailed | Cancelled.

Global Instance prompt_status_eq_dec : EqDecision prompt_status.
Proof. solve_decision. Defined.
Global Instance video_status_eq_dec : EqDecision video_status.
Proof. solve_decision. Defined.

(** A row of [public.prompts]. *)
Record Prompt := MkPrompt {
  p_id : string;
  p_user_id : string;
  p_prompt : string;
  p_created_at : Z;
  p_updated_at : Z;
  p_model_used : string;
  p_type : prompt_type;
  p_size : option string;
  p_guidance_scale : option Z;
  p_language : string;
  p_status : prompt_status
}.

(** The [Insert] shape of a prompt: the columns generateImage supplies
    are mandatory here, the defaulted ones optional. *)
Record PromptInsert := MkPromptInsert {
  pi_user_id : string;
  pi_prompt : string;
  pi_model_used : string;
  pi_type : prompt_type;
  pi_size : option string;
  pi_guidance_scale : option Z;
  pi_language : option string;
  pi_status : option prompt_status
}.

(** A row of [public.images]. There is no column for a storage URL. *)
Record Image := MkImage {
  i_id : string;
  i_prompt_id : string;
  i_url : string;
  i_created_at : Z;
  i_updated_at : Z;
  i_size : string;
  i_b64 : option string;
  i_file_size : option Z;
  i_mime_type : option string
}.

Record ImageInsert := MkImageInsert {
  ii_prompt_id : string;
  ii_url : string;
  ii_size : string;
  ii_file_size : option Z;
  ii_mime_type : option string
}.

(** A row of [public.videos]. *)
Record Video := MkVideo {
  v_id : string;
  v_prompt_id : string;
  v_url : option string;
  v_status : video_status;
  v_created_at : Z;
  v_updated_at : Z;
  v_duration : option Z;
  v_aspect_ratio : option string;
  v_file_size : option Z;
  v_mime_type : option string;
  v_task_id : option string;
  v_error_message : option string
}.

End Db.

Export Db.

(** ** The Supabase client *)

Module Supabase.

Record PostgrestError := MkPgError { code : string; message : string }.

(** What a request resolves to: [{ data, error }]. *)
Record Response (A : Type) := MkResponse {
  data : option A;
  error : option PostgrestError
}.
Global Arguments MkResponse {A} data error.
Global Arguments data {A} r.
Global Arguments error {A} r.

Inductive Request :=
| SelectPrompts
| SelectImages
| SelectVideos
| InsertPrompt (p : PromptInsert)
| InsertImage (i : ImageInsert).

(** The service: the three tables, in insertion order, and the fault (if
    any) it answers a request with: an outage, a row-level-security
    denial, a constraint that is not spelled out below. *)
Record Backend := MkBackend {
  prompts : list Prompt;
  images : list Image;
  videos : list Video;
  fault : Request → option PostgrestError
}.

(** [.eq(column, value)] *)
Definition eq_ {Row : Type} (column : Row → string) (value : string)
    (rows : list Row) : list Row :=
  filter (λ r, column r = value) rows.

(** The two orders of [.order(column, { ascending })]. *)
Definition ordered {Row : Type} (column : Row → Z) (ascending : bool)
    : relation Row :=
  λ a b, if ascending then (column a ≤ column b)%Z
         else (column b ≤ column a)%Z.

Global Instance ordered_dec {Row : Type} (column : Row → Z) asc
  : RelDecision (ordered column asc).
Proof. intros a b. unfold ordered. destruct asc; apply _. Defined.

Definition order {Row : Type} (column : Row → Z) (ascending : bool)
    (rows : list Row) : list Row :=
  merge_sort (ordered column ascending) rows.

(** [.limit(n)] *)
Definition limit {Row : Type} (n : nat) (rows : list Row) : list Row :=
  take n rows.

(** The embedded resource [prompts!inner(user_id)]: an image or video
    row survives the inner join only together with its prompt row. *)
Definition owner_of (db : Backend) (prompt_id : string) : option string :=
  p_user_id <$> head (eq_ p_id prompt_id (prompts db)).

Definition inner_user_id {Row : Type} (db : Backend)
    (prompt_id : Row → string) (userId : string) (rows : list Row)
    : list Row :=
  filter (λ r, owner_of db (prompt_id r) = Some userId) rows.

(** A select that resolves to the rows, unless the service faults. *)
Definition resolve {Row : Type} (db : Backend) (req : Request)
    (rows : list Row) : Response (list Row) :=
  match fault db req with
  | Some e => MkResponse None (Some e)
  | None => MkResponse (Some rows) None
  end.

(** [.single()]: exactly one row, or the error PGRST116. *)
Definition single {Row : Type} (db : Backend) (req : Request)
    (rows : list Row) : Response Row :=
  match fault db req with
  | Some e => MkResponse None (Some e)
  | None =>
      match rows with
      | [r] => MkResponse (Some r) None
      | _ => MkResponse None
               (Some (MkPgError "PGRST116"
                        "JSON object requested, multiple (or no) rows returned"))
      end
  end.

End Supabase.

Export Supabase.

(** Code of the contexts runs against the service and hands it back. *)
Definition DbM (A : Type) : Type := Backend → Result A * Backend.

(** ** contexts/PromptContext.tsx *)

Module PromptContext.

Definition getPromptById (id : string) : DbM (option Prompt) := λ db,
  let r := single db SelectPrompts (eq_ p_id id (prompts db)) in
  match error r with
  | Some e =>
      if bool_decide (code e = "PGRST116") then (Ok None, db)
      else (Throw (MkError ("Failed to get prompt: " +:+ message e)), db)
  | None => (Ok (data r), db)
  end.

Definition getUserPrompts (userId : string) (limit_ : nat)
    : DbM (list Prompt) := λ db,
  let r := resolve db SelectPrompts
             (limit limit_
                (order p_created_at false
                   (eq_ p_user_id userId (prompts db)))) in
  match error r with
  | Some e =>
      (Throw (MkError ("Failed to get user prompts: " +:+ message e)), db)
  | None => (Ok (default [] (data r)), db)
  end.

End PromptContext.

(** ** contexts/ImageContext.tsx *)

Module ImageContext.

Definition getUserImages (userId : string) (limit_ : nat)
    : DbM (list Image) := λ db,
  let r := resolve db SelectImages
             (limit limit_
                (order i_created_at false
                   (inner_user_id db i_prompt_id userId (images db)))) in
  match error r with
  | Some e =>
      (Throw (MkError ("Failed to get user images: " +:+ message e)), db)
  | None => (Ok (default [] (data r)), db)
  end.

End ImageContext.

(** ** contexts/VideoContext.tsx *)

Module VideoContext.

Definition getVideoById (id : string) : DbM (option Video) := λ db,
  let r := single db SelectVideos (eq_ v_id id (videos db)) in
  match error r with
  | Some e =>
      if bool_decide (code e = "PGRST116") then (Ok None, db)
      else (Throw (MkError ("Failed to get video: " +:+ message e)), db)
  | None => (Ok (data r), db)
  end.

(** The test that ends the polling:
    [status === "succeeded" || status === "failed" || status === "cancelled"]. *)
Definition is_final (s : video_status) : bool :=
  match s with
  | Succeeded | VFailed | Cancelled => true
  | Queued | Running => false
  end.

(** The caller's [onStatusChange]: absent, or a function that returns or
    throws. *)
Definition Callback : Type := option (Video → option Error).

(** One call of [pollVideoStatus], as the event loop sees it: the interval
    it registered, the ticks whose query has not been answered yet, and
    what the ticks have done so far. *)
Record Poller := MkPoller {
  videoId : string;
  onStatusChange : Callback;
  interval_set : bool;        (* setInterval done, clearInterval not yet *)
  in_flight : nat;            (* ticks suspended at [await getVideoById] *)
  queries : nat;              (* status queries issued *)
  calls : list Video;         (* arguments of the callback's calls, oldest first *)
  errors : list Error;        (* console.error("Failed to poll video status:", e) *)
  local : list Video          (* the context's [videos] state *)
}.

Inductive Event :=
| TimerFires                  (* 5000 ms have passed on a registered interval *)
| StoreAnswers (db : Backend) (* a suspended tick resumes, answered from [db] *)
| CleanupCalled.              (* the caller runs the returned function *)

Definition pollVideoStatus (id : string) (cb : Callback) (vids : list Video)
    : Poller :=
  MkPoller id cb true 0 0 [] [] vids.

Definition clearInterval (p : Poller) : Poller :=
  MkPoller (videoId p) (onStatusChange p) false (in_flight p) (queries p)
    (calls p) (errors p) (local p).

(** [setVideos(prev => prev.map(vid => vid.id === video.id ? video : vid))] *)
Definition setVideos (video : Video) (p : Poller) : Poller :=
  MkPoller (videoId p) (onStatusChange p) (interval_set p) (in_flight p)
    (queries p) (calls p) (errors p)
    ((λ vid, if bool_decide (v_id vid = v_id video) then video else vid)
       <$> local p).

(** [onStatusChange?.(video)]: the call is recorded; a callback that throws
    throws into the tick's [try]. *)
Definition invoke (video : Video) (p : Poller) : Result unit * Poller :=
  match onStatusChange p with
  | None => (Ok (), p)
  | Some f =>
      let p' := MkPoller (videoId p) (onStatusChange p) (interval_set p)
                  (in_flight p) (queries p) (calls p ++ [video]) (errors p)
                  (local p) in
      match f video with
      | None => (Ok (), p')
      | Some e => (Throw e, p')
      end
  end.

(** The [catch] of a tick. *)
Definition caught (e : Error) (p : Poller) : Poller :=
  clearInterval
    (MkPoller (videoId p) (onStatusChange p) (interval_set p) (in_flight p)
       (queries p) (calls p) (errors p ++ [e]) (local p)).

(** A tick from the point where [await getVideoById(videoId)] settles. *)
Definition resume (db : Backend) (p : Poller) : Poller :=
  match fst (getVideoById (videoId p) db) with
  | Ok (Some video) =>
      match invoke video (setVideos video p) with
      | (Ok _, p') =>
          if is_final (v_status video) then clearInterval p' else p'
      | (Throw e, p') => caught e p'
      end
  | Ok None => p
  | Throw e => caught e p
  end.

Definition step (p : Poller) (ev : Event) : Poller :=
  match ev with
  | TimerFires =>
      (* a cleared interval never fires; a registered one starts a tick,
         which issues its query at once *)
      if interval_set p then
        MkPoller (videoId p) (onStatusChange p) true (S (in_flight p))
          (S (queries p)) (calls p) (errors p) (local p)
      else p
  | StoreAnswers db =>
      match in_flight p with
      | 0 => p
      | S n =>
          resume db
            (MkPoller (videoId p) (onStatusChange p) (interval_set p) n
               (queries p) (calls p) (errors p) (local p))
      end
  | CleanupCalled => clearInterval p
  end.

Definition run (p : Poller) (evs : list Event) : Poller :=
  foldl step p evs.

(** An interval's worth of polling against a store that answers at once. *)
Definition tick (db : Backend) : list Event := [TimerFires; StoreAnswers db].

End VideoContext.

(** ** The world of the image pipeline *)

Module World.

(** A [Blob]: its bytes and its MIME type. *)
Record Blob := MkBlob { blob_bytes : string; blob_type : string }.

Definition blob_size (b : Blob) : Z := Z.of_nat (String.length (blob_bytes b)).

(** The body sent to /api/generate-image. *)
Record ApiRequest := MkApiRequest {
  rq_prompt : string;
  rq_model : string;
  rq_size : string;
  rq_guidance_scale : Z;
  rq_watermark : bool
}.

(** The generation API's JSON: [{ data: [{ url }, ...] }], every part of
    which may be missing. *)
Record ImageData := MkImageData { url : option string }.
Record ApiData := MkApiData { items : option (list ImageData) }.

(** [fetch] rejects (the network) or resolves to a response. *)
Inductive Fetched (A : Type) : Type :=
| NetworkError (e : Error)
| Responded (r : A).
Global Arguments NetworkError {A} e.
Global Arguments Responded {A} r.

(** The response of the serverless function: [status], what [text()]
    gives and what [json()] gives (it throws on a body that is not JSON). *)
Record ApiResponse := MkApiResponse {
  status : nat;
  text : string;
  json : Result ApiData
}.

(** The response to the GET of a media URL. *)
Record FileResponse := MkFileResponse {
  file_status : nat;
  file_statusText : string;
  file_blob : Blob
}.

(** [response.ok] *)
Definition ok (st : nat) : bool := bool_decide (200 ≤ st ≤ 299)%nat.

(** Everything outside the program that answers it. The clock and the
    id generator are asked with the number of requests issued so far. *)
Record Env := MkEnv {
  generate_api : ApiRequest → Fetched ApiResponse;
  fetch_file : string → Fetched FileResponse;
  storage_fault : string → Blob → option string;
  public_url : string → string;
  now : nat → Z;
  uuid : nat → string
}.

(** The requests a run issues, in order. *)
Inductive Io :=
| IoInsertPrompt (p : PromptInsert)
| IoGenerate (r : ApiRequest)
| IoDownload (u : string)
| IoUpload (fileName : string) (b : Blob)
| IoInsertImage (i : ImageInsert).

Inductive Level := LLog | LWarn | LError.

(** A console line: its text and, for a logged error, the error's message. *)
Record Line := MkLine {
  level : Level;
  line : string;
  detail : option string
}.

Record World := MkWorld {
  db : Backend;
  bucket : gmap string Blob;   (* the storage bucket "images" *)
  console : list Line;
  io : list Io
}.

(** State and exceptions of the pipeline. *)
Definition IoM (A : Type) : Type := World → Result A * World.

Definition ret {A} (a : A) : IoM A := λ w, (Ok a, w).
Definition throw {A} (e : Error) : IoM A := λ w, (Throw e, w).

Definition bind {A B} (m : IoM A) (k : A → IoM B) : IoM B := λ w,
  match m w with
  | (Ok a, w') => k a w'
  | (Throw e, w') => (Throw e, w')
  end.

Definition try_catch {A} (m : IoM A) (h : Error → IoM A) : IoM A := λ w,
  match m w with
  | (Ok a, w') => (Ok a, w')
  | (Throw e, w') => h e w'
  end.

Definition issue (r : Io) : IoM unit := λ w,
  (Ok (), MkWorld (db w) (bucket w) (console w) (io w ++ [r])).

Definition print (l : Level) (s : string) (d : option string) : IoM unit := λ w,
  (Ok (), MkWorld (db w) (bucket w) (console w ++ [MkLine l s d]) (io w)).

Definition set_db (d : Backend) : IoM unit := λ w,
  (Ok (), MkWorld d (bucket w) (console w) (io w)).

Definition set_bucket (b : gmap string Blob) : IoM unit := λ w,
  (Ok (), MkWorld (db w) b (console w) (io w)).

Definition get : IoM World := λ w, (Ok w, w).

End World.

Export World.

Notation "'do' x <- m ; k" := (bind m (λ x, k))
  (at level 10, x name, m at level 100, k at level 200,
   format "'[v' 'do'  x  <-  m ; '/' k ']'").
Notation "'do_' m ; k" := (bind m (λ _, k))
  (at level 10, m at level 100, k at level 200,
   format "'[v' 'do_'  m ; '/' k ']'").

(** ** The Supabase client, writing *)

Module Writes.

Definition check_violation (constraint : string) : PostgrestError :=
  MkPgError "23514" ("new row violates check constraint " +:+ constraint).

Definition foreign_key_violation (constraint : string) : PostgrestError :=
  MkPgError "23503"
    ("insert violates foreign key constraint " +:+ constraint).

Definition positive_or_null (x : option Z) : bool :=
  match x with
  | Some z => bool_decide (0 < z)%Z
  | None => true
  end.

(** [supabase.from("prompts").insert(p).select().single()]: the CHECKs and
    DEFAULTs are those of schema.sql. A request the service faults (it is
    out of reach, or row security refuses the row) is answered with the
    fault before any constraint of the table is looked at. *)
Definition insert_prompt (env : Env) (p : PromptInsert)
    : IoM (Response Prompt) :=
  do_ issue (IoInsertPrompt p);
  do w <- get;
  match fault (db w) (InsertPrompt p) with
  | Some e => ret (MkResponse None (Some e))
  | None =>
      if bool_decide (String.length (pi_prompt p) = 0)%nat then
        ret (MkResponse None (Some (check_violation "prompts_prompt_check")))
      else if negb (positive_or_null (pi_guidance_scale p)) then
        ret (MkResponse None
               (Some (check_violation "prompts_guidance_scale_check")))
      else
        let t := now env (length (io w)) in
        let row :=
          MkPrompt (uuid env (length (io w))) (pi_user_id p) (pi_prompt p)
            t t (pi_model_used p) (pi_type p) (pi_size p)
            (pi_guidance_scale p) (default "en" (pi_language p))
            (default Pending (pi_status p)) in
        do_ set_db (MkBackend (prompts (db w) ++ [row]) (images (db w))
                      (videos (db w)) (fault (db w)));
        ret (MkResponse (Some row) None)
  end.

(** [supabase.from("images").insert(i).select().single()] *)
Definition insert_image (env : Env) (i : ImageInsert)
    : IoM (Response Image) :=
  do_ issue (IoInsertImage i);
  do w <- get;
  match fault (db w) (InsertImage i) with
  | Some e => ret (MkResponse None (Some e))
  | None =>
      if negb (positive_or_null (ii_file_size i)) then
        ret (MkResponse None
               (Some (check_violation "images_file_size_check")))
      else if bool_decide
                (eq_ p_id (ii_prompt_id i) (prompts (db w)) = []) then
        ret (MkResponse None
               (Some (foreign_key_violation "images_prompt_id_fkey")))
      else
        let t := now env (length (io w)) in
        let row :=
          MkImage (uuid env (length (io w))) (ii_prompt_id i) (ii_url i)
            t t (ii_size i) None (ii_file_size i) (ii_mime_type i) in
        do_ set_db (MkBackend (prompts (db w)) (images (db w) ++ [row])
                      (videos (db w)) (fault (db w)));
        ret (MkResponse (Some row) None)
  end.

(** [supabase.storage.from("images").upload(fileName, blob,
    { upsert: false })]: resolves to the stored path or to an error message;
    an existing object is never replaced. *)
Definition storage_upload (env : Env) (fileName : string) (b : Blob)
    : IoM (string + string) :=
  do_ issue (IoUpload fileName b);
  do w <- get;
  match bucket w !! fileName with
  | Some _ => ret (inr "The resource already exists")
  | None =>
      match storage_fault env fileName b with
      | Some msg => ret (inr msg)
      | None =>
          do_ set_bucket (<[fileName := b]> (bucket w));
          ret (inl fileName)
      end
  end.

End Writes.

Export Writes.

(** ** api/imageApi.ts *)

Module ImageApi.

Record GenerateImageParams := MkParams {
  g_prompt : string;
  g_model : option string;
  g_size : option string;
  g_guidance_scale : option Z;
  g_watermark : option bool;
  g_userId : string
}.

(** An element of [GeneratedImageResult.images]. *)
Record SavedImage := MkSaved {
  s_id : string;
  s_url : string;
  s_bucketUrl : string;
  s_size : string
}.

Record GeneratedImageResult := MkResult {
  promptId : string;
  r_images : list SavedImage
}.

Definition downloadImageAsBlob (env : Env) (imageUrl : string) : IoM Blob :=
  do_ issue (IoDownload imageUrl);
  match fetch_file env imageUrl with
  | NetworkError e => throw e
  | Responded response =>
      if negb (ok (file_status response)) then
        throw (MkError ("Failed to download image: "
                        +:+ pretty (file_status response) +:+ " "
                        +:+ file_statusText response))
      else ret (file_blob response)
  end.

Definition uploadImageToSupabase (env : Env) (imageBlob : Blob)
    (fileName : string) : IoM string :=
  do r <- storage_upload env fileName imageBlob;
  match r with
  | inr msg => throw (MkError ("Failed to upload image to storage: " +:+ msg))
  | inl path => ret (public_url env path)
  end.

(** The name an image is stored under:
    [`${promptRecord.id}_${index + 1}_${Date.now()}.png`]. *)
Definition fileName_of (promptRecord : Prompt) (index : nat) (t : Z)
    : string :=
  p_id promptRecord +:+ "_" +:+ pretty (index + 1)%nat +:+ "_"
    +:+ pretty t +:+ ".png".

(** The [try] block of one turn of the loop: [None] is its [continue]. *)
Definition save_image (env : Env) (promptRecord : Prompt) (size : string)
    (index : nat) (imageUrl : string) : IoM (option SavedImage) :=
  do imageBlob <- downloadImageAsBlob env imageUrl;
  do w <- get;
  let fileName := fileName_of promptRecord index (now env (length (io w))) in
  do bucketUrl <- uploadImageToSupabase env imageBlob fileName;
  let imageRecord :=
    MkImageInsert (p_id promptRecord) imageUrl size
      (Some (blob_size imageBlob))
      (Some (if falsy (blob_type imageBlob) then "image/png"
             else blob_type imageBlob)) in
  do r <- insert_image env imageRecord;
  match error r, data r with
  | Some imageError, _ =>
      do_ print LError ("Failed to save image " +:+ pretty index +:+ ":")
            (Some (message imageError));
      ret None
  | None, Some savedImage =>
      ret (Some (MkSaved (i_id savedImage) imageUrl bucketUrl size))
  | None, None =>
      throw (MkError "Cannot read properties of null (reading 'id')")
  end.

(** One turn of the loop over [data.data]; [savedImages] is threaded. *)
Definition process_image (env : Env) (promptRecord : Prompt) (size : string)
    (index : nat) (imageData : ImageData) (savedImages : list SavedImage)
    : IoM (list SavedImage) :=
  match url imageData with
  | Some imageUrl =>
      if falsy imageUrl then
        do_ print LWarn ("Image " +:+ pretty index +:+ " has no URL, skipping")
              None;
        ret savedImages
      else
        try_catch
          (do r <- save_image env promptRecord size index imageUrl;
           match r with
           | Some s => ret (savedImages ++ [s])%list
           | None => ret savedImages
           end)
          (λ imageError,
             do_ print LError
                   ("Failed to process image " +:+ pretty index +:+ ":")
                   (Some (err_message imageError));
             ret savedImages)
  | None =>
      do_ print LWarn ("Image " +:+ pretty index +:+ " has no URL, skipping")
            None;
      ret savedImages
  end.

Fixpoint process_images (env : Env) (promptRecord : Prompt) (size : string)
    (index : nat) (rest : list ImageData) (savedImages : list SavedImage)
    : IoM (list SavedImage) :=
  match rest with
  | [] => ret savedImages
  | imageData :: rest' =>
      do savedImages' <-
        process_image env promptRecord size index imageData savedImages;
      process_images env promptRecord size (S index) rest' savedImages'
  end.

(** The defaults of the destructured parameters. *)
Definition model_of (params : GenerateImageParams) : string :=
  default "seedream-3-0-t2i-250415" (g_model params).

Definition size_of (params : GenerateImageParams) : string :=
  default "1024x1024" (g_size params).

Definition guidance_scale_of (params : GenerateImageParams) : Z :=
  default 3%Z (g_guidance_scale params).

Definition watermark_of (params : GenerateImageParams) : bool :=
  default true (g_watermark params).

(** [promptData], the row to create: no [status] is given. *)
Definition promptData_of (params : GenerateImageParams) : PromptInsert :=
  MkPromptInsert (g_userId params) (g_prompt params) (model_of params) TImage
    (Some (size_of params)) (Some (guidance_scale_of params)) (Some "en")
    None.

(** The body posted to the serverless function. *)
Definition request_of (params : GenerateImageParams) : ApiRequest :=
  MkApiRequest (g_prompt params) (model_of params) (size_of params)
    (guidance_scale_of params) (watermark_of params).

Definition generateImage (env : Env) (params : GenerateImageParams)
    : IoM GeneratedImageResult :=
  try_catch
    ((* Step 1: create the prompt record *)
     do r <- insert_prompt env (promptData_of params);
     match error r, data r with
     | Some promptError, _ =>
         throw (MkError ("Failed to create prompt record: "
                         +:+ message promptError))
     | None, None =>
         throw (MkError "Cannot read properties of null (reading 'id')")
     | None, Some promptRecord =>
         (* Step 2: call the serverless function *)
         do_ print LLog "Generating image via serverless function..." None;
         do_ print LLog "Prompt:" (Some (g_prompt params));
         do_ print LLog "Model:" (Some (model_of params));
         do_ print LLog "Size:" (Some (size_of params));
         do_ issue (IoGenerate (request_of params));
         match generate_api env (request_of params) with
         | NetworkError e => throw e
         | Responded response =>
             if negb (ok (status response)) then
               throw (MkError ("Server error: " +:+ pretty (status response)
                               +:+ " - " +:+ text response))
             else
               match json response with
               | Throw e => throw e
               | Ok data =>
                   do_ print LLog "API Response:" None;
                   (* Step 3: process and save the images *)
                   match items data with
                   | None | Some [] =>
                       throw (MkError "No image data received from API")
                   | Some l =>
                       do savedImages <-
                         process_images env promptRecord (size_of params)
                           0 l [];
                       (* Step 4: validate the results *)
                       if bool_decide (length savedImages = 0)%nat then
                         throw (MkError
                           "No images were successfully processed and saved")
                       else ret (MkResult (p_id promptRecord) savedImages)
                   end
               end
         end
     end)
    (λ error,
       do_ print LError "Image generation failed:" (Some (err_message error));
       throw error).

End ImageApi.

(** ** api/generate-image.js, the serverless function *)

Module GenerateImageFn.

(** [req.body]: any field may be missing. *)
Record Body := MkBody {
  b_prompt : option string;
  b_model : option string;
  b_size : option string;
  b_guidance_scale : option Z;
  b_watermark : option bool
}.

Record Req := MkReq { method : string; body : Body }.

(** The body posted to the ModelArk endpoint. *)
Record Upstream := MkUpstream {
  u_model : string;
  u_prompt : string;
  u_response_format : string;
  u_size : string;
  u_guidance_scale : Z;
  u_watermark : bool
}.

(** The process environment and the network of the function. *)
Record Server := MkServer {
  ARK_API_KEY : option string;
  modelark : Upstream → Fetched ApiResponse
}.

Inductive ResBody :=
| NoBody
| JsonError (msg : string)    (* { error: msg } *)
| JsonData (d : ApiData).

Record Res := MkRes { res_status : nat; res_body : ResBody }.

Definition handler (srv : Server) (req : Req) : Res :=
  if bool_decide (method req = "OPTIONS") then MkRes 200 NoBody
  else if negb (bool_decide (method req = "POST")) then
    MkRes 405 (JsonError "Method not allowed")
  else
    let b := body req in
    (* [!prompt] *)
    match b_prompt b with
    | None => MkRes 400 (JsonError "Prompt is required")
    | Some prompt =>
        if falsy prompt then MkRes 400 (JsonError "Prompt is required")
        else if falsy (or_default (ARK_API_KEY srv) "") then
          MkRes 500 (JsonError "API key not configured")
        else
          let guidance :=
            match b_guidance_scale b with
            | Some g => if bool_decide (g = 0)%Z then 3%Z else g
            | None => 3%Z
            end in
          let up :=
            MkUpstream (or_default (b_model b) "seedream-3-0-t2i-250415")
              prompt "url" (or_default (b_size b) "1024x1024") guidance
              (default true (b_watermark b)) in
          let internal (e : Error) :=
            MkRes 500
              (JsonError ("Internal server error: "
                          +:+ or_default (Some (err_message e))
                                "Unknown error")) in
          match modelark srv up with
          | NetworkError e => internal e
          | Responded modelarkResponse =>
              if negb (ok (status modelarkResponse)) then
                MkRes (status modelarkResponse)
                  (JsonError ("API Error: "
                              +:+ pretty (status modelarkResponse)
                              +:+ " - " +:+ text modelarkResponse))
              else
                match json modelarkResponse with
                | Throw e => internal e
                | Ok data => MkRes 200 (JsonData data)
                end
          end
    end.

End GenerateImageFn.

(** ** hooks/useImageGeneration.ts and pages/ImageGenerationPage.tsx *)

Module Page.

Import ImageApi.

(** An element of the page's [generatedImages]. *)
Record ImageGeneration := MkGen {
  ig_id : string;
  ig_prompt : string;
  ig_url : string;
  ig_bucketUrl : string;
  ig_timestamp : string;
  ig_size : string
}.

Record Settings := MkSettings {
  st_size : string;
  st_guidance_scale : Z;
  st_model : string;
  st_watermark : bool
}.

(** React state of the page, of the hook and of the image context, and the
    alerts shown. *)
Record Ui := MkUi {
  user : option string;                (* useAuth().user?.id *)
  prompt : string;
  generatedImages : list ImageGeneration;
  imageSettings : Settings;
  loading : bool;
  error_ : option string;
  progress : string * string;
  ctx_images : list Image;
  ctx_loading : bool;
  alerts : list string
}.

Definition UiM (A : Type) : Type := Ui * World → A * (Ui * World).

Definition set_hook (l : bool) (e : option string) (pr : string * string)
    (u : Ui) : Ui :=
  MkUi (user u) (prompt u) (generatedImages u) (imageSettings u) l e pr
    (ctx_images u) (ctx_loading u) (alerts u).

Definition set_ctx (imgs : list Image) (l : bool) (u : Ui) : Ui :=
  MkUi (user u) (prompt u) (generatedImages u) (imageSettings u) (loading u)
    (error_ u) (progress u) imgs l (alerts u).

Definition log_error (s : string) (e : Error) (w : World) : World :=
  MkWorld (db w) (bucket w)
    (console w ++ [MkLine LError s (Some (err_message e))]) (io w).

(** ImageContext's [refreshUserImages] *)
Definition refreshUserImages : UiM unit := λ '(u, w),
  match user u with
  | None => ((), (u, w))
  | Some id =>
      match fst (ImageContext.getUserImages id 50 (db w)) with
      | Ok userImages => ((), (set_ctx userImages false u, w))
      | Throw e =>
          ((), (set_ctx (ctx_images u) false u,
                log_error "Failed to refresh user images:" e w))
      end
  end.

(** The hook's [generateImage]: [null] is [None]. *)
Definition hook_generateImage (env : Env) (p : string) (s : Settings)
    : UiM (option GeneratedImageResult) := λ '(u, w),
  match user u with
  | None =>
      (None,
       (set_hook (loading u)
          (Some "User must be authenticated to generate images")
          (progress u) u, w))
  | Some id =>
      let params :=
        MkParams p (Some (st_model s)) (Some (st_size s))
          (Some (st_guidance_scale s)) (Some (st_watermark s)) id in
      match generateImage env params w with
      | (Ok result, w') =>
          let u1 :=
            set_hook true None
              ("completed", "Image generation completed successfully!") u in
          let '(_, (u2, w2)) := refreshUserImages (u1, w') in
          (Some result, (set_hook false (error_ u2) ("idle", "") u2, w2))
      | (Throw e, w') =>
          (None,
           (set_hook false (Some (err_message e)) ("idle", "") u,
            log_error "Image generation failed:" e w'))
      end
  end.

(** The page's [handleGenerate]: what the one call does to the state. The
    page's effect that reloads the recent images, and sets the gallery
    anew when it settles, is no part of it. *)
Definition handleGenerate (env : Env) : UiM unit := λ '(u, w),
  if falsy (trim (prompt u)) then ((), (u, w))
  else
    match user u with
    | None =>
        ((), (MkUi (user u) (prompt u) (generatedImages u) (imageSettings u)
                (loading u) (error_ u) (progress u) (ctx_images u)
                (ctx_loading u)
                (alerts u ++ ["Please log in to generate images"]), w))
    | Some _ =>
        (* clearError() *)
        let u0 := set_hook (loading u) None (progress u) u in
        let '(result, (u1, w1)) :=
          hook_generateImage env (trim (prompt u)) (imageSettings u) (u0, w) in
        match result with
        | Some r =>
            if bool_decide (0 < length (r_images r))%nat then
              let newImages :=
                (λ img, MkGen (s_id img) (trim (prompt u)) (s_url img)
                          (s_bucketUrl img) "Just now" (s_size img))
                  <$> r_images r in
              ((), (MkUi (user u1) "" (newImages ++ generatedImages u1)
                      (imageSettings u1) (loading u1) (error_ u1)
                      (progress u1) (ctx_images u1) (ctx_loading u1)
                      (alerts u1), w1))
            else ((), (u1, w1))
        | None => ((), (u1, w1))
        end
    end.

End Page.

(** ** What a run of the pipeline leaves behind *)

Module Observed.

Import ImageApi.

(** The media URLs a run asked for, in order. *)
Definition downloads (l : list Io) : list string :=
  omap (λ r, match r with IoDownload u => Some u | _ => None end) l.

(** The URLs of a response's items, those the loop does not skip:
    [!imageData.url] skips a missing and an empty URL. *)
Definition usable_urls (l : list ImageData) : list string :=
  omap (λ d, match url d with
             | Some u => if falsy u then None else Some u
             | None => None
             end) l.

(** The text columns of an image row. *)
Definition text_columns (r : Image) : list string :=
  [i_id r; i_prompt_id r; i_url r; i_size r]
  ++ option_list (i_b64 r) ++ option_list (i_mime_type r).

(** The row [r] is the one saved for the result entry [s] of a run for
    [promptRecord] at [size]. *)
Definition row_of (promptRecord : Prompt) (size : string) (s : SavedImage)
    (r : Image) : Prop :=
  i_id r = s_id s ∧ i_url r = s_url s
  ∧ i_prompt_id r = p_id promptRecord ∧ i_size r = size ∧ s_size s = size
  ∧ i_b64 r = None.

(** The bytes behind the entry's URL were downloaded with a 2xx answer and
    are stored in the bucket under the name its [bucketUrl] points to. *)
Definition transferred (env : Env) (w : World) (s : SavedImage) : Prop :=
  ∃ fileName response,
    fetch_file env (s_url s) = Responded response
    ∧ ok (file_status response) = true
    ∧ bucket w !! fileName = Some (file_blob response)
    ∧ s_bucketUrl s = public_url env fileName.

End Observed.

(** ** Scenarios *)

Module Scenario.

Import ImageApi VideoContext.

Definition no_faults : Request → option PostgrestError := λ _, None.

Definition empty_backend : Backend := MkBackend [] [] [] no_faults.

Definition empty_world : World := MkWorld empty_backend ∅ [] [].

Definition png : Blob := MkBlob "PNG-bytes" "image/png".

(** The generation API answers 200 with the given URLs. *)
Definition api_with (urls : list string) : ApiRequest → Fetched ApiResponse :=
  λ _, Responded
         (MkApiResponse 200 "{...}"
            (Ok (MkApiData (Some ((λ u, MkImageData (Some u)) <$> urls))))).

(** Every media URL can be downloaded except those in [broken], which
    answer 404. *)
Definition files_except (broken : list string)
    : string → Fetched FileResponse :=
  λ u, if bool_decide (u ∈ broken)
       then Responded (MkFileResponse 404 "Not Found" (MkBlob "" ""))
       else Responded (MkFileResponse 200 "OK" png).

Definition env_with (urls broken : list string) : Env :=
  MkEnv (api_with urls) (files_except broken) (λ _ _, None)
    (λ path, "https://cdn.example/images/" +:+ path)
    (λ n, 1700000000000 + Z.of_nat n)%Z
    (λ n, "uuid-" +:+ pretty n).

Definition fox : GenerateImageParams :=
  MkParams "A red fox in snow" None (Some "1024x1024") None None "user-1".

Definition three_urls : list string :=
  ["https://ark.example/a.png"; "https://ark.example/b.png";
   "https://ark.example/c.png"].

(** Three URLs, the second of which cannot be downloaded. *)
Definition env_second_broken : Env :=
  env_with three_urls ["https://ark.example/b.png"].

(** One URL, which cannot be downloaded. *)
Definition env_only_broken : Env :=
  env_with ["https://ark.example/a.png"] ["https://ark.example/a.png"].

(** One URL, and everything works. *)
Definition env_one : Env := env_with ["https://ark.example/a.png"] [].

(** The generation API answers 502 with a text body. *)
Definition env_bad_gateway : Env :=
  MkEnv (λ _, Responded (MkApiResponse 502 "upstream unavailable"
                           (Throw (MkError "Unexpected token u in JSON"))))
    (files_except []) (λ _ _, None) (λ path, path) (λ _, 0%Z)
    (λ n, "uuid-" +:+ pretty n).

Definition a_video (st : video_status) : Video :=
  MkVideo "vid-1" "prompt-1" None st 0 0 (Some 5%Z) (Some "16:9") None
    (Some "video/mp4") (Some "t1") None.

(** A store that holds the one video, in the given status. *)
Definition store (st : video_status) : Backend :=
  MkBackend [] [] [a_video st] no_faults.

(** A store whose every request fails. *)
Definition store_down : Backend :=
  MkBackend [] [] [a_video Running]
    (λ _, Some (MkPgError "503" "service unavailable")).

Definition returns : Callback := Some (λ _, None).

(** A poller for the one video whose first tick awaits its answer. *)
Definition awaiting : Poller :=
  step (pollVideoStatus "vid-1" returns []) TimerFires.

(** The same poller one answered tick (status running) later, and then with
    its second tick awaiting the answer. *)
Definition polled_once : Poller :=
  run (pollVideoStatus "vid-1" returns []) (tick (store Running)).

Definition awaiting_again : Poller := step polled_once TimerFires.

Definition a_prompt (id owner : string) (t : Z) : Prompt :=
  MkPrompt id owner "A red fox in snow" t t "seedream-3-0-t2i-250415" TImage
    (Some "1024x1024") (Some 3%Z) "en" Pending.

Definition an_image (id prompt_id : string) (t : Z) : Image :=
  MkImage id prompt_id "https://ark.example/a.png" t t "1024x1024" None
    (Some 9%Z) (Some "image/png").




(** The serverless function with its key configured and ModelArk
    answering 200 with one URL. *)
Definition server : GenerateImageFn.Server :=
  GenerateImageFn.MkServer (Some "ark-key")
    (λ _, Responded
            (MkApiResponse 200 "{...}"
               (Ok (MkApiData
                      (Some [MkImageData
                               (Some "https://ark.example/a.png")]))))).

(** Two users with prompts and images, not stored in order of time. *)
Definition history_store : Backend :=
  MkBackend
    [a_prompt "p1" "user-1" 10; a_prompt "p2" "user-2" 20;
     a_prompt "p3" "user-1" 30]
    [an_image "i1" "p1" 11; an_image "i2" "p3" 31; an_image "i3" "p2" 21]
    [] no_faults.

End Scenario.

(** ** api/imageApi.ts, the functions beside generateImage *)

Module ImageApiTools.

Import ImageApi.

(** What [testApiConnection] resolves to: [{ success, error?, data? }]. *)
Record TestResult := MkTest {
  success : bool;
  t_error : option string;
  t_data : option ApiData
}.

(** The body [testApiConnection] posts: [prompt || "A simple test image"]
    with the fixed model, size, guidance scale and watermark. *)
Definition test_request (prompt : string) : ApiRequest :=
  MkApiRequest (or_default (Some prompt) "A simple test image")
    "seedream-3-0-t2i-250415" "1024x1024" 3 true.

Definition testApiConnection (env : Env) (prompt : string) : IoM TestResult :=
  try_catch
    (do_ print LLog "Testing API connection via serverless function..." None;
     do_ issue (IoGenerate (test_request prompt));
     match generate_api env (test_request prompt) with
     | NetworkError e => throw e
     | Responded response =>
         if negb (ok (status response)) then
           ret (MkTest false
                  (Some ("Server error: " +:+ pretty (status response)
                         +:+ " - " +:+ text response)) None)
         else
           match json response with
           | Throw e => throw e
           | Ok data =>
               do_ print LLog "Test successful:" None;
               match items data with
               | None | Some [] =>
                   ret (MkTest false (Some "No image data received from API")
                          None)
               | Some _ => ret (MkTest true None (Some data))
               end
           end
     end)
    (λ error,
       do_ print LError "Test connection error:" (Some (err_message error));
       ret (MkTest false (Some (err_message error)) None)).

(** [supabase.storage.from("images").remove([fileName])], answered with
    [outage] when the service fails; [deleteImageFromStorage] turns the
    failure into an exception. *)
Definition deleteImageFromStorage (outage : option string) (fileName : string)
    : IoM unit :=
  match outage with
  | Some msg =>
      throw (MkError ("Failed to delete image from storage: " +:+ msg))
  | None => do w <- get; set_bucket (delete fileName (bucket w))
  end.

End ImageApiTools.

(** ** The Supabase client: update and delete *)

Module Mutations.

Definition not_single : PostgrestError :=
  MkPgError "PGRST116"
    "JSON object requested, multiple (or no) rows returned".

(** [.update(f).eq("id", id).select().single()] on a table: the row with
    the id is replaced by its update and returned; when not exactly one
    row has the id the request fails with PGRST116 and nothing is
    written. [outage] is the fault the service answers with, if any. *)
Definition update_single {Row : Type} (outage : option PostgrestError)
    (id_of : Row → string) (id : string) (f : Row → Row) (rows : list Row)
    : Response Row * list Row :=
  match outage with
  | Some e => (MkResponse None (Some e), rows)
  | None =>
      match eq_ id_of id rows with
      | [r] =>
          (MkResponse (Some (f r)) None,
           (λ r', if bool_decide (id_of r' = id) then f r' else r') <$> rows)
      | _ => (MkResponse None (Some not_single), rows)
      end
  end.

(** [.delete().eq("id", id)] on prompts: images and videos of the prompt
    go with it ([ON DELETE CASCADE] in schema.sql). *)
Definition delete_prompt (id : string) (db : Backend) : Backend :=
  MkBackend (filter (λ p, p_id p ≠ id) (prompts db))
    (filter (λ i, i_prompt_id i ≠ id) (images db))
    (filter (λ v, v_prompt_id v ≠ id) (videos db))
    (fault db).

End Mutations.

(** ** contexts/PromptContext.tsx, writing *)

Module PromptWrites.

Import Mutations.

Global Instance prompt_type_eq_dec : EqDecision prompt_type.
Proof. solve_decision. Defined.

(** The context's React state next to the service: the signed-in user's id
    and the local list of prompts. *)
Record Ctx := MkCtx {
  authUser : option string;
  local_prompts : list Prompt
}.

(** [createPrompt]: the row is inserted with [language || "en"] and
    [status || "pending"], and put in front of the local list when it
    belongs to the signed-in user. The local list is returned with the
    row. *)
Definition createPrompt (env : Env) (ctx : Ctx) (prompt : PromptInsert)
    : IoM (Prompt * list Prompt) :=
  do r <- insert_prompt env
            (MkPromptInsert (pi_user_id prompt) (pi_prompt prompt)
               (pi_model_used prompt) (pi_type prompt) (pi_size prompt)
               (pi_guidance_scale prompt)
               (Some (or_default (pi_language prompt) "en"))
               (Some (default Pending (pi_status prompt))));
  match error r, data r with
  | Some e, _ => throw (MkError ("Failed to create prompt: " +:+ message e))
  | None, None =>
      throw (MkError "Cannot read properties of null (reading 'user_id')")
  | None, Some row =>
      if bool_decide (authUser ctx = Some (p_user_id row)) then
        ret (row, row :: local_prompts ctx)
      else ret (row, local_prompts ctx)
  end.

(** [deletePrompt]: on success the prompt is filtered out of the local
    list. *)
Definition deletePrompt (outage : option PostgrestError) (ctx : Ctx)
    (id : string) (db : Backend) : Result unit * (Backend * list Prompt) :=
  match outage with
  | Some e =>
      (Throw (MkError ("Failed to delete prompt: " +:+ message e)),
       (db, local_prompts ctx))
  | None =>
      (Ok (),
       (delete_prompt id db,
        filter (λ p, p_id p ≠ id) (local_prompts ctx)))
  end.

(** [getPromptsByType]: [getUserPrompts] with [.eq("type", type)]. *)
Definition getPromptsByType (userId : string) (type : prompt_type)
    (limit_ : nat) : DbM (list Prompt) := λ db,
  let r := resolve db SelectPrompts
             (limit limit_
                (order p_created_at false
                   (filter (λ p, p_type p = type)
                      (eq_ p_user_id userId (prompts db))))) in
  match error r with
  | Some e =>
      (Throw (MkError ("Failed to get prompts by type: " +:+ message e)), db)
  | None => (Ok (default [] (data r)), db)
  end.

End PromptWrites.

(** ** contexts/VideoContext.tsx, writing *)

Module VideoWrites.

Import Mutations VideoContext.

(** [updateVideoStatus] at time [t]: [url] and [error_message] are written
    only when the argument is given and not empty. The service and the
    local list of videos are handed back. *)
Definition updateVideoStatus (outage : option PostgrestError) (t : Z)
    (local : list Video) (id : string) (st : video_status)
    (url errorMessage : option string) (db : Backend)
    : Result Video * (Backend * list Video) :=
  let keep (new old : option string) :=
    match new with
    | Some s => if falsy s then old else Some s
    | None => old
    end in
  let write (v : Video) :=
    MkVideo (v_id v) (v_prompt_id v) (keep url (v_url v)) st
      (v_created_at v) t (v_duration v) (v_aspect_ratio v) (v_file_size v)
      (v_mime_type v) (v_task_id v) (keep errorMessage (v_error_message v)) in
  let '(r, rows) := update_single outage v_id id write (videos db) in
  let db' := MkBackend (prompts db) (images db) rows (fault db) in
  match error r, data r with
  | Some e, _ =>
      (Throw (MkError ("Failed to update video status: " +:+ message e)),
       (db', local))
  | None, None =>
      (Throw (MkError "Cannot read properties of null (reading 'id')"),
       (db', local))
  | None, Some row =>
      (Ok row,
       (db',
        (λ vid, if bool_decide (v_id vid = v_id row) then row else vid)
          <$> local))
  end.

(** The ticks of the timer among a poller's events. *)
Definition fired (evs : list Event) : nat :=
  length (filter (λ ev, match ev with
                        | TimerFires => true
                        | _ => false
                        end = true) evs).

End VideoWrites.

(** ** Further scenarios *)

Module Cases.

Import ImageApi GenerateImageFn.

(** A POST of a prompt with nothing else in the body. *)
Definition post (prompt : string) : Req :=
  MkReq "POST" (MkBody (Some prompt) None None None None).

(** ModelArk as in [Scenario.server], except that a request without a
    model never gets through. *)
Definition picky : Upstream → Fetched ApiResponse :=
  λ up, if bool_decide (u_model up = "")
        then NetworkError (MkError "model is required")
        else modelark Scenario.server up.

(** A world whose database is [Scenario.history_store]. *)
Definition stocked : World := MkWorld Scenario.history_store ∅ [] [].

(** The insert of the fox prompt through the Prompt context. *)
Definition fox_insert : PromptInsert :=
  MkPromptInsert "user-1" "A red fox in snow" "seedream-3-0-t2i-250415"
    TImage (Some "1024x1024") (Some 3%Z) None None.

Definition signed_in : PromptWrites.Ctx :=
  PromptWrites.MkCtx (Some "user-1") [].

(** The page with the fox prompt typed in, blanks around it, signed in as
    user-1, and then signed out. *)
Definition fox_page : Page.Ui :=
  Page.MkUi (Some "user-1") "  A red fox in snow " []
    (Page.MkSettings "1024x1024" 3 "seedream-3-0-t2i-250415" true)
    false None ("idle", "") [] false [].

Definition signed_out_page : Page.Ui :=
  Page.MkUi None "A red fox in snow" []
    (Page.MkSettings "1024x1024" 3 "seedream-3-0-t2i-250415" true)
    false None ("idle", "") [] false [].

(** What the run of [Scenario.fox] against [Scenario.env_second_broken]
    resolves to. *)
Definition two_of_three : GeneratedImageResult :=
  MkResult "uuid-1"
    [MkSaved "uuid-5" "https://ark.example/a.png"
       "https://cdn.example/images/uuid-1_1_1700000000003.png" "1024x1024";
     MkSaved "uuid-9" "https://ark.example/c.png"
       "https://cdn.example/images/uuid-1_3_1700000000007.png" "1024x1024"].

End Cases.

(** * Properties *)

(** ** Facts about the query builder *)

Lemma eq_nil {Row : Type} (column : Row → string) (value : string)
    (rows : list Row) :
  (∀ r, r ∈ rows → column r ≠ value) → eq_ column value rows = [].
Proof.
  unfold eq_. induction rows as [|r rows IH]; intros Hno; [done|].
  rewrite filter_cons. destruct (decide (column r = value)) as [Heq|_].
  - exfalso. by apply (Hno r); [left|].
  - apply IH. intros r' Hr'. apply Hno. by right.
Qed.

Global Instance ordered_total {Row : Type} (column : Row → Z) asc :
  Total (ordered column asc).
Proof. intros a b. unfold ordered. destruct asc; lia. Qed.

Global Instance ordered_trans {Row : Type} (column : Row → Z) asc :
  Transitive (ordered column asc).
Proof. intros a b c. unfold ordered. destruct asc; lia. Qed.

Lemma StronglySorted_take {A : Type} (R : relation A) (n : nat) (l : list A) :
  StronglySorted R l → StronglySorted R (take n l).
Proof.
  intros Hl. revert n.
  induction Hl as [|x l Hl IH Hx]; intros [|n]; simpl; try constructor.
  - apply IH.
  - by apply Forall_take.
Qed.

Lemma order_sorted {Row : Type} (column : Row → Z) asc (rows : list Row) :
  StronglySorted (ordered column asc) (order column asc rows).
Proof. unfold order. apply StronglySorted_merge_sort; apply _. Qed.

Lemma order_perm {Row : Type} (column : Row → Z) asc (rows : list Row) :
  order column asc rows ≡ₚ rows.
Proof. unfold order. apply merge_sort_Permutation. Qed.

Lemma order_nil {Row : Type} (column : Row → Z) asc :
  order column asc (@nil Row) = [].
Proof. reflexivity. Qed.

(** ** The id lookups *)

(** C10. A lookup by id that matches no row resolves to null:
    [getPromptById] and [getVideoById] map the not-found answer PGRST116 of
    [.single()] to [null]; an error with any other code is rethrown as an
    exception carrying its message. *)
Theorem lookup_by_id_not_found_is_null (db : Backend) (id : string) :
  (fault db SelectPrompts = None →
   (∀ p, p ∈ prompts db → p_id p ≠ id) →
   PromptContext.getPromptById id db = (Ok None, db))
  ∧ (fault db SelectVideos = None →
     (∀ v, v ∈ videos db → v_id v ≠ id) →
     VideoContext.getVideoById id db = (Ok None, db))
  ∧ (∀ e, fault db SelectPrompts = Some e → code e ≠ "PGRST116" →
     PromptContext.getPromptById id db
     = (Throw (MkError ("Failed to get prompt: " +:+ message e)), db))
  ∧ (∀ e, fault db SelectVideos = Some e → code e ≠ "PGRST116" →
     VideoContext.getVideoById id db
     = (Throw (MkError ("Failed to get video: " +:+ message e)), db)).
Proof.
  unfold PromptContext.getPromptById, VideoContext.getVideoById, single.
  repeat split.
  - intros -> Hno. by rewrite (eq_nil p_id id _ Hno).
  - intros -> Hno. by rewrite (eq_nil v_id id _ Hno).
  - intros e -> Hcode. simpl. by rewrite bool_decide_eq_false_2.
  - intros e -> Hcode. simpl. by rewrite bool_decide_eq_false_2.
Qed.

Lemma lookup_by_id_not_found_is_null_witness :
  PromptContext.getPromptById "vid-1" (Scenario.store Running)
  = (Ok None, Scenario.store Running)
  ∧ VideoContext.getVideoById "vid-2" (Scenario.store Running)
    = (Ok None, Scenario.store Running)
  ∧ PromptContext.getPromptById "vid-1" Scenario.store_down
    = (Throw (MkError "Failed to get prompt: service unavailable"),
       Scenario.store_down)
  ∧ VideoContext.getVideoById "vid-1" Scenario.store_down
    = (Throw (MkError "Failed to get video: service unavailable"),
       Scenario.store_down).
Proof.
  pose proof (lookup_by_id_not_found_is_null (Scenario.store Running) "vid-1")
    as (Hp & _ & _ & _).
  pose proof (lookup_by_id_not_found_is_null (Scenario.store Running) "vid-2")
    as (_ & Hv & _ & _).
  pose proof (lookup_by_id_not_found_is_null Scenario.store_down "vid-1")
    as (_ & _ & Hpe & Hve).
  split; [|split; [|split]].
  - apply Hp; [reflexivity|]. intros p Hp'. inversion Hp'.
  - apply Hv; [reflexivity|]. intros v Hv'.
    apply list_elem_of_singleton in Hv'. subst v. discriminate.
  - apply (Hpe (MkPgError "503" "service unavailable")); [reflexivity|].
    discriminate.
  - apply (Hve (MkPgError "503" "service unavailable")); [reflexivity|].
    discriminate.
Defined.

(** ** The history reads *)

Lemma inner_user_id_nil {Row : Type} (db : Backend) (prompt_id : Row → string)
    (userId : string) (rows : list Row) :
  (∀ r, r ∈ rows → owner_of db (prompt_id r) ≠ Some userId) →
  inner_user_id db prompt_id userId rows = [].
Proof.
  unfold inner_user_id. induction rows as [|r rows IH]; intros Hno; [done|].
  rewrite filter_cons.
  destruct (decide (owner_of db (prompt_id r) = Some userId)) as [Heq|_].
  - exfalso. by apply (Hno r); [left|].
  - apply IH. intros r' Hr'. apply Hno. by right.
Qed.

(** C9. A history read ([getUserPrompts], [getUserImages]) leaves the
    store as it found it; the rows it resolves to are the owner's rows,
    newest first by [created_at] and cut at the limit; when no row
    matches it resolves to the empty sequence, not to an error; and a
    second read with the same arguments, nothing written in between,
    gives the same result as the first. *)
Theorem history_reads_newest_first (db : Backend) (userId : string) (n : nat) :
  (snd (PromptContext.getUserPrompts userId n db) = db
   ∧ (∀ rows, fst (PromptContext.getUserPrompts userId n db) = Ok rows →
      StronglySorted (λ a b, (p_created_at b ≤ p_created_at a)%Z) rows
      ∧ ∃ all, rows = take n all
               ∧ all ≡ₚ filter (λ p, p_user_id p = userId) (prompts db))
   ∧ (fault db SelectPrompts = None →
      (∀ p, p ∈ prompts db → p_user_id p ≠ userId) →
      fst (PromptContext.getUserPrompts userId n db) = Ok [])
   ∧ PromptContext.getUserPrompts userId n
       (snd (PromptContext.getUserPrompts userId n db))
     = PromptContext.getUserPrompts userId n db)
  ∧ (snd (ImageContext.getUserImages userId n db) = db
     ∧ (∀ rows, fst (ImageContext.getUserImages userId n db) = Ok rows →
        StronglySorted (λ a b, (i_created_at b ≤ i_created_at a)%Z) rows
        ∧ ∃ all, rows = take n all
                 ∧ all ≡ₚ filter
                       (λ i, owner_of db (i_prompt_id i) = Some userId)
                       (images db))
     ∧ (fault db SelectImages = None →
        (∀ i, i ∈ images db → owner_of db (i_prompt_id i) ≠ Some userId) →
        fst (ImageContext.getUserImages userId n db) = Ok [])
     ∧ ImageContext.getUserImages userId n
         (snd (ImageContext.getUserImages userId n db))
       = ImageContext.getUserImages userId n db).
Proof.
  assert (Hp : snd (PromptContext.getUserPrompts userId n db) = db).
  { unfold PromptContext.getUserPrompts, resolve.
    by destruct (fault db SelectPrompts). }
  assert (Hi : snd (ImageContext.getUserImages userId n db) = db).
  { unfold ImageContext.getUserImages, resolve.
    by destruct (fault db SelectImages). }
  split; (split; [done|split; [|split]]).
  - intros rows. unfold PromptContext.getUserPrompts, resolve.
    destruct (fault db SelectPrompts); simpl; [done|].
    intros [= <-]. split.
    + apply StronglySorted_take, (order_sorted p_created_at false).
    + eexists. split; [reflexivity|]. apply order_perm.
  - intros Hf Hno. unfold PromptContext.getUserPrompts, resolve.
    rewrite Hf. simpl. rewrite (eq_nil p_user_id userId _ Hno).
    by rewrite order_nil, take_nil.
  - by rewrite Hp.
  - intros rows. unfold ImageContext.getUserImages, resolve.
    destruct (fault db SelectImages); simpl; [done|].
    intros [= <-]. split.
    + apply StronglySorted_take, (order_sorted i_created_at false).
    + eexists. split; [reflexivity|]. apply order_perm.
  - intros Hf Hno. unfold ImageContext.getUserImages, resolve.
    rewrite Hf. simpl. rewrite (inner_user_id_nil db i_prompt_id userId _ Hno).
    by rewrite order_nil, take_nil.
  - by rewrite Hi.
Qed.

Lemma history_reads_newest_first_witness :
  (fst (PromptContext.getUserPrompts "user-1" 50 Scenario.history_store)
   = Ok [Scenario.a_prompt "p3" "user-1" 30; Scenario.a_prompt "p1" "user-1" 10]
   ∧ StronglySorted (λ a b, (p_created_at b ≤ p_created_at a)%Z)
       [Scenario.a_prompt "p3" "user-1" 30; Scenario.a_prompt "p1" "user-1" 10])
  ∧ fst (PromptContext.getUserPrompts "user-3" 50 Scenario.history_store)
    = Ok []
  ∧ (fst (ImageContext.getUserImages "user-1" 50 Scenario.history_store)
     = Ok [Scenario.an_image "i2" "p3" 31; Scenario.an_image "i1" "p1" 11]
     ∧ StronglySorted (λ a b, (i_created_at b ≤ i_created_at a)%Z)
         [Scenario.an_image "i2" "p3" 31; Scenario.an_image "i1" "p1" 11])
  ∧ fst (ImageContext.getUserImages "user-3" 50 Scenario.history_store)
    = Ok [].
Proof.
  pose proof (history_reads_newest_first Scenario.history_store "user-1" 50)
    as [(_ & Hp & _ & _) (_ & Hi & _ & _)].
  pose proof (history_reads_newest_first Scenario.history_store "user-3" 50)
    as [(_ & _ & Hpe & _) (_ & _ & Hie & _)].
  split; [|split; [|split]].
  - split; [reflexivity|]. apply Hp. reflexivity.
  - apply Hpe; [reflexivity|]. apply Forall_forall.
    repeat constructor; discriminate.
  - split; [reflexivity|]. apply Hi. reflexivity.
  - apply Hie; [reflexivity|]. apply Forall_forall.
    repeat constructor; discriminate.
Defined.

(** ** The polling loop *)

Section Polling.

Import VideoContext.

Lemma resume_queries (db : Backend) (p : Poller) :
  queries (resume db p) = queries p.
Proof.
  unfold resume, invoke, caught, clearInterval, setVideos.
  repeat case_match; simplify_eq; done.
Qed.

Lemma resume_cleared (db : Backend) (p : Poller) :
  interval_set p = false → interval_set (resume db p) = false.
Proof.
  unfold resume, invoke, caught, clearInterval, setVideos.
  repeat case_match; simplify_eq; done.
Qed.

Lemma step_cleared (p : Poller) (ev : Event) :
  interval_set p = false →
  interval_set (step p ev) = false ∧ queries (step p ev) = queries p.
Proof.
  intros Hc. destruct ev as [|db|]; simpl.
  - by rewrite Hc.
  - destruct (in_flight p); [done|].
    split; [by apply resume_cleared | by rewrite resume_queries].
  - done.
Qed.

Lemma run_cleared (evs : list Event) (p : Poller) :
  interval_set p = false →
  interval_set (run p evs) = false ∧ queries (run p evs) = queries p.
Proof.
  revert p. induction evs as [|ev evs IH]; intros p Hc; [done|].
  destruct (step_cleared p ev Hc) as [Hc' Hq].
  destruct (IH (step p ev) Hc') as [? ?]. simpl.
  split; [done | congruence].
Qed.

(** With the interval cleared and no tick suspended, nothing is left that
    could run. *)
Lemma run_quiescent (evs : list Event) (p : Poller) :
  interval_set p = false → in_flight p = 0 → run p evs = p.
Proof.
  intros Hc Hf. induction evs as [|ev evs IH]; [done|].
  simpl. replace (step p ev) with p; [done|].
  destruct ev; simpl; rewrite ?Hc, ?Hf; try done.
  destruct p; simpl in *. by subst.
Qed.

Lemma resume_final (db : Backend) (p : Poller) (video : Video) :
  fst (getVideoById (videoId p) db) = Ok (Some video) →
  is_final (v_status video) = true →
  interval_set (resume db p) = false.
Proof.
  intros Hq Hfin. unfold resume. rewrite Hq.
  unfold invoke, caught, clearInterval, setVideos. simpl.
  repeat case_match; simplify_eq; done.
Qed.

(** C1. A tick that observes a final status (succeeded, failed,
    cancelled) clears the interval, and so does the function handed back
    to the caller; from then on no status query is issued, whatever
    happens next. Against a store that reports a final status at once,
    the callback is called exactly once, one query is issued, and the
    interval is gone. *)
Theorem polling_stops_when_final_or_cancelled (p : Poller) :
  (∀ db video evs,
     (0 < in_flight p)%nat →
     fst (getVideoById (videoId p) db) = Ok (Some video) →
     is_final (v_status video) = true →
     let p' := step p (StoreAnswers db) in
     interval_set p' = false
     ∧ interval_set (run p' evs) = false
     ∧ queries (run p' evs) = queries p')
  ∧ (∀ evs,
       let p' := step p CleanupCalled in
       interval_set p' = false
       ∧ interval_set (run p' evs) = false
       ∧ queries (run p' evs) = queries p')
  ∧ (∀ id vids f db video evs,
       fst (getVideoById id db) = Ok (Some video) →
       is_final (v_status video) = true →
       let q := run (pollVideoStatus id (Some f) vids) (tick db ++ evs) in
       calls q = [video] ∧ queries q = 1%nat ∧ interval_set q = false
       ∧ in_flight q = 0%nat).
Proof.
  split; [|split].
  - intros db video evs Hfl Hq Hfin p'.
    assert (Hc : interval_set p' = false).
    { subst p'. simpl. destruct (in_flight p) as [|n]; [lia|].
      by apply (resume_final _ _ video). }
    split; [done|]. by apply run_cleared.
  - intros evs p'. assert (Hc : interval_set p' = false) by done.
    split; [done|]. by apply run_cleared.
  - intros id vids f db video evs Hq Hfin q. subst q.
    unfold run. rewrite foldl_app.
    fold (run (pollVideoStatus id (Some f) vids) (tick db)).
    set (q0 := run _ (tick db)).
    assert (Hq0 : calls q0 = [video] ∧ queries q0 = 1%nat
                  ∧ interval_set q0 = false ∧ in_flight q0 = 0%nat).
    { subst q0. unfold run, tick, pollVideoStatus. simpl.
      unfold resume. simpl. rewrite Hq.
      unfold invoke, caught, clearInterval, setVideos. simpl.
      destruct (f video); simpl; rewrite ?Hfin; done. }
    destruct Hq0 as (? & ? & Hc & Hf).
    fold (run q0 evs). by rewrite (run_quiescent evs q0 Hc Hf).
Qed.

Lemma polling_stops_when_final_or_cancelled_witness :
  (interval_set
     (step Scenario.awaiting (StoreAnswers (Scenario.store Succeeded)))
   = false
   ∧ queries
       (run (step Scenario.awaiting (StoreAnswers (Scenario.store Succeeded)))
          (tick (Scenario.store Running) ++ tick (Scenario.store Running)))
     = 1%nat)
  ∧ queries
      (run (step Scenario.awaiting CleanupCalled)
         (tick (Scenario.store Running) ++ tick (Scenario.store Running)))
    = 1%nat
  ∧ calls (run (pollVideoStatus "vid-1" Scenario.returns [])
             (tick (Scenario.store Cancelled)
              ++ tick (Scenario.store Running)
              ++ tick (Scenario.store Running)))
    = [Scenario.a_video Cancelled].
Proof.
  set (p := Scenario.awaiting).
  set (evs := tick (Scenario.store Running) ++ tick (Scenario.store Running)).
  pose proof (polling_stops_when_final_or_cancelled p) as (Hfin & Hcan & Honce).
  split; [|split].
  - destruct (Hfin (Scenario.store Succeeded) (Scenario.a_video Succeeded) evs)
      as (H1 & _ & H3).
    + subst p. simpl. lia.
    + reflexivity.
    + reflexivity.
    + split; [exact H1|]. rewrite H3. reflexivity.
  - destruct (Hcan evs) as (_ & _ & H3). rewrite H3. reflexivity.
  - destruct (Honce "vid-1" [] (λ _, None) (Scenario.store Cancelled)
                (Scenario.a_video Cancelled) evs) as (H1 & _).
    + reflexivity.
    + reflexivity.
    + exact H1.
Defined.

(** C2, as the code has it. A tick whose status query fails logs the
    error and clears the interval: no later tick runs and no further
    query is issued. The failure is not reported as the task failing: the
    callback is not called and the local video state is left as it was. *)
Theorem query_error_is_logged_and_ends_polling
    (p : Poller) (db : Backend) (e : Error) (evs : list Event) :
  (0 < in_flight p)%nat →
  fst (getVideoById (videoId p) db) = Throw e →
  let p' := step p (StoreAnswers db) in
  errors p' = errors p ++ [e]
  ∧ interval_set p' = false
  ∧ calls p' = calls p
  ∧ local p' = local p
  ∧ queries (run p' evs) = queries p.
Proof.
  intros Hfl Hq p'.
  assert (Hp' : p' = caught e
            (MkPoller (videoId p) (onStatusChange p) (interval_set p)
               (pred (in_flight p)) (queries p) (calls p) (errors p)
               (local p))).
  { subst p'. simpl. destruct (in_flight p) as [|n]; [lia|].
    unfold resume. simpl. by rewrite Hq. }
  rewrite Hp'. repeat split.
  destruct (run_cleared evs (caught e
    (MkPoller (videoId p) (onStatusChange p) (interval_set p)
       (pred (in_flight p)) (queries p) (calls p) (errors p) (local p))))
    as [_ ->]; done.
Qed.

Lemma query_error_is_logged_and_ends_polling_witness :
  errors (step Scenario.awaiting (StoreAnswers Scenario.store_down))
  = [MkError "Failed to get video: service unavailable"]
  ∧ interval_set (step Scenario.awaiting (StoreAnswers Scenario.store_down))
    = false
  ∧ queries (run (step Scenario.awaiting (StoreAnswers Scenario.store_down))
               (tick (Scenario.store Running))) = 1%nat.
Proof.
  set (p := Scenario.awaiting).
  destruct (query_error_is_logged_and_ends_polling p Scenario.store_down
              (MkError "Failed to get video: service unavailable")
              (tick (Scenario.store Running)))
    as (He & Hc & _ & _ & Hq).
  - subst p. simpl. lia.
  - reflexivity.
  - split; [exact He|]. split; [exact Hc|]. exact Hq.
Defined.

(** C2 as stated fails: after one failed query the interval is gone, and
    the next two intervals issue no query, although the store is back. *)
Lemma polling_does_not_survive_a_query_error :
  fst (getVideoById "vid-1" Scenario.store_down)
  = Throw (MkError "Failed to get video: service unavailable")
  ∧ interval_set Scenario.awaiting = true
  ∧ interval_set (step Scenario.awaiting (StoreAnswers Scenario.store_down))
    = false
  ∧ queries (run Scenario.awaiting
               (StoreAnswers Scenario.store_down
                :: tick (Scenario.store Running)
                ++ tick (Scenario.store Running))) = 1%nat
  ∧ ¬ (queries (run Scenario.awaiting
                  (StoreAnswers Scenario.store_down
                   :: tick (Scenario.store Running))) = 2%nat).
Proof. repeat split. discriminate. Qed.

(** C3, as the code has it. Every tick whose query finds the video calls
    the callback, when one was supplied, with the row just read, whether
    or not its status is the one seen at the previous tick; a tick whose
    query finds no row calls nothing. *)
Theorem callback_fires_on_every_answer
    (p : Poller) (db : Backend) (f : Video → option Error) :
  (0 < in_flight p)%nat →
  onStatusChange p = Some f →
  (∀ video, fst (getVideoById (videoId p) db) = Ok (Some video) →
     calls (step p (StoreAnswers db)) = calls p ++ [video])
  ∧ (fst (getVideoById (videoId p) db) = Ok None →
     calls (step p (StoreAnswers db)) = calls p).
Proof.
  intros Hfl Hcb. destruct (in_flight p) as [|n] eqn:Hn; [lia|].
  split.
  - intros video Hq. simpl. rewrite Hn. unfold resume. simpl. rewrite Hq.
    unfold invoke, setVideos. simpl. rewrite Hcb.
    unfold caught, clearInterval.
    destruct (f video), (is_final (v_status video)); done.
  - intros Hq. simpl. rewrite Hn. unfold resume. simpl. by rewrite Hq.
Qed.

Lemma callback_fires_on_every_answer_witness :
  calls Scenario.awaiting_again = [Scenario.a_video Running]
  ∧ calls (step Scenario.awaiting_again
             (StoreAnswers (Scenario.store Running)))
    = [Scenario.a_video Running; Scenario.a_video Running]
  ∧ calls (step Scenario.awaiting_again
             (StoreAnswers Scenario.empty_backend))
    = [Scenario.a_video Running].
Proof.
  set (p := Scenario.awaiting_again).
  destruct (callback_fires_on_every_answer p (Scenario.store Running)
              (λ _, None)) as [Hrow _].
  { subst p. simpl. lia. }
  { reflexivity. }
  destruct (callback_fires_on_every_answer p Scenario.empty_backend
              (λ _, None)) as [_ Hnull].
  { subst p. simpl. lia. }
  { reflexivity. }
  split; [reflexivity|]. split.
  - rewrite (Hrow (Scenario.a_video Running)); reflexivity.
  - rewrite Hnull; reflexivity.
Defined.

(** C3 as stated fails: two ticks in a row read the status running, and
    the callback is called at both. *)
Lemma callback_fires_without_a_status_change :
  v_status <$> calls Scenario.polled_once = [Running]
  ∧ v_status
      <$> calls (run Scenario.polled_once (tick (Scenario.store Running)))
    = [Running; Running].
Proof. split; reflexivity. Qed.

End Polling.

(** ** The image pipeline *)

Section Pipeline.

Import ImageApi Observed.

Lemma downloadImageAsBlob_spec env u w :
  snd (downloadImageAsBlob env u w)
  = MkWorld (db w) (bucket w) (console w) (io w ++ [IoDownload u])
  ∧ ∀ b, fst (downloadImageAsBlob env u w) = Ok b →
      ∃ response, fetch_file env u = Responded response
                  ∧ ok (file_status response) = true
                  ∧ b = file_blob response.
Proof.
  unfold downloadImageAsBlob, bind, issue, throw, ret. simpl.
  destruct (fetch_file env u) as [e|response]; simpl; [by split|].
  destruct (ok (file_status response)) eqn:Hok; simpl; split; try done.
  intros b [= <-]. by exists response.
Qed.

Lemma uploadImageToSupabase_spec env blob fileName w :
  let w' := snd (uploadImageToSupabase env blob fileName w) in
  db w' = db w ∧ console w' = console w
  ∧ io w' = io w ++ [IoUpload fileName blob]
  ∧ bucket w ⊆ bucket w'
  ∧ ∀ u, fst (uploadImageToSupabase env blob fileName w) = Ok u →
      u = public_url env fileName ∧ bucket w !! fileName = None
      ∧ bucket w' = <[fileName := blob]> (bucket w).
Proof.
  unfold uploadImageToSupabase, storage_upload, bind, issue, throw, ret, get,
    set_bucket. simpl.
  destruct (bucket w !! fileName) eqn:Hb; simpl; [by repeat split|].
  destruct (storage_fault env fileName blob); simpl; [by repeat split|].
  split; [done|]. split; [done|]. split; [done|]. split.
  - by apply insert_subseteq.
  - by intros u [= <-].
Qed.

Lemma insert_image_spec env i w :
  let r := fst (insert_image env i w) in
  let w' := snd (insert_image env i w) in
  (∃ x, r = Ok x ∧
    ((error x ≠ None ∧ images (db w') = images (db w))
     ∨ (∃ row, error x = None ∧ data x = Some row
          ∧ images (db w') = images (db w) ++ [row]
          ∧ i_prompt_id row = ii_prompt_id i ∧ i_url row = ii_url i
          ∧ i_size row = ii_size i ∧ i_b64 row = None)))
  ∧ prompts (db w') = prompts (db w)
  ∧ bucket w' = bucket w
  ∧ io w' = io w ++ [IoInsertImage i].
Proof.
  unfold insert_image, bind, issue, throw, ret, get, set_db. simpl.
  destruct (fault (db w) (InsertImage i)); simpl.
  { split; [|done]. eexists; split; [done|]. by left. }
  destruct (positive_or_null (ii_file_size i)); simpl.
  2: { split; [|done]. eexists; split; [done|]. by left. }
  case_bool_decide; simpl.
  { split; [|done]. eexists; split; [done|]. by left. }
  split; [|done]. eexists; split; [done|]. right. by eexists.
Qed.


Lemma downloads_app l1 l2 : downloads (l1 ++ l2) = downloads l1 ++ downloads l2.
Proof. apply omap_app. Qed.

Lemma transferred_mono env w w' s :
  bucket w ⊆ bucket w' → transferred env w s → transferred env w' s.
Proof.
  intros Hsub (fileName & response & ? & ? & Hb & ?).
  exists fileName, response. split_and!; try done.
  by eapply lookup_weaken.
Qed.

Lemma process_image_spec env pr size index d saved w :
  ∃ saved' w',
    process_image env pr size index d saved w = (Ok saved', w')
    ∧ prompts (db w') = prompts (db w)
    ∧ bucket w ⊆ bucket w'
    ∧ downloads (io w') = downloads (io w) ++ usable_urls [d]
    ∧ ((saved' = saved ∧ images (db w') = images (db w))
       ∨ ∃ s r, saved' = saved ++ [s]
                ∧ images (db w') = images (db w) ++ [r]
                ∧ row_of pr size s r
                ∧ transferred env w' s
                ∧ s_url s ∈ usable_urls [d]).
Proof.
  unfold process_image, usable_urls. simpl.
  destruct (url d) as [u|]; simpl.
  2: { eexists _, _. split; [reflexivity|]. simpl. rewrite app_nil_r.
       split_and!; try done. by left. }
  destruct (falsy u) eqn:Hu; simpl.
  { eexists _, _. split; [reflexivity|]. simpl. rewrite app_nil_r.
    split_and!; try done. by left. }
  simpl.
  unfold try_catch, save_image, bind, get. cbv beta.
  pose proof (downloadImageAsBlob_spec env u w) as [Hw1 Hb].
  destruct (downloadImageAsBlob env u w) as [[b|e] w1]; simpl in Hw1, Hb;
    cbv beta iota.
  2: { subst w1. eexists _, _. split; [reflexivity|]. simpl.
       rewrite downloads_app. split_and!; try done. by left. }
  destruct (Hb b eq_refl) as (response & Hfetch & Hok & ->). clear Hb.
  set (fileName := fileName_of pr index (now env (length (io w1)))).
  pose proof (uploadImageToSupabase_spec env (file_blob response) fileName w1)
    as (Hdb2 & Hco2 & Hio2 & Hsub2 & Hup).
  destruct (uploadImageToSupabase env (file_blob response) fileName w1)
    as [[bucketUrl|e] w2]; simpl in Hdb2, Hco2, Hio2, Hsub2, Hup;
    cbv beta iota.
  2: { eexists _, _. split; [reflexivity|]. simpl. rewrite Hdb2, Hio2, Hw1.
       simpl. rewrite !downloads_app. simpl. rewrite app_nil_r.
       subst w1. split_and!; try done. by left. }
  destruct (Hup bucketUrl eq_refl) as (-> & Hfresh & Hb2). clear Hup.
  match goal with |- context [insert_image env ?i w2] =>
    pose proof (insert_image_spec env i w2)
      as ((x & Hx & Hcase) & Hp3 & Hb3 & Hio3);
    destruct (insert_image env i w2) as [r3 w3] end.
  simpl in Hx, Hcase, Hp3, Hb3, Hio3. subst r3. cbv beta iota.
  assert (Hdl : downloads (io w3) = downloads (io w) ++ [u]).
  { rewrite Hio3, Hio2, Hw1. simpl. rewrite !downloads_app. simpl.
    by rewrite !app_nil_r. }
  assert (Hbk : bucket w ⊆ bucket w3).
  { rewrite Hb3. subst w1. exact Hsub2. }
  assert (Hpr : prompts (db w3) = prompts (db w)).
  { rewrite Hp3, Hdb2, Hw1. done. }
  destruct Hcase
    as [[Herr Himg]|(row & Herr & Hdata & Himg & Hpid & Hurl & Hsz & Hb64)].
  - destruct (error x) as [ie|]; [|done]. simpl.
    eexists _, _. split; [reflexivity|]. simpl.
    split_and!; try done.
    left. split; [done|]. rewrite Himg, Hdb2, Hw1. done.
  - rewrite Herr, Hdata. simpl.
    eexists _, _. split; [reflexivity|].
    split_and!; try done.
    right. eexists _, row. split; [reflexivity|].
    split; [rewrite Himg, Hdb2, Hw1; done|].
    split; [by split_and!|].
    split; [|simpl; by left].
    exists fileName, response. simpl. split_and!; try done.
    rewrite Hb3, Hb2. apply lookup_insert_eq.
Qed.

Lemma process_images_spec env pr size items : ∀ index saved w,
  ∃ saved' w',
    process_images env pr size index items saved w = (Ok saved', w')
    ∧ prompts (db w') = prompts (db w)
    ∧ bucket w ⊆ bucket w'
    ∧ downloads (io w') = downloads (io w) ++ usable_urls items
    ∧ ∃ new rows,
        saved' = saved ++ new
        ∧ images (db w') = images (db w) ++ rows
        ∧ Forall2 (row_of pr size) new rows
        ∧ Forall (transferred env w') new
        ∧ Forall (λ s, s_url s ∈ usable_urls items) new.
Proof.
  induction items as [|d items IH]; intros index saved w.
  - exists saved, w. simpl. unfold ret. rewrite !app_nil_r.
    split_and!; try done. exists [], []. by rewrite !app_nil_r.
  - cbn [process_images]. unfold bind.
    destruct (process_image_spec env pr size index d saved w)
      as (s1 & w1 & -> & Hp1 & Hb1 & Hd1 & Hcase).
    destruct (IH (S index) s1 w1)
      as (s2 & w2 & -> & Hp2 & Hb2 & Hd2 & new & rows & -> & Hi2 & Hrows
          & Htr & Hin).
    exists (s1 ++ new), w2. split; [done|].
    assert (Hus : usable_urls (d :: items) = usable_urls [d] ++ usable_urls items).
    { unfold usable_urls. by rewrite <- omap_app. }
    split_and!.
    + congruence.
    + by etrans.
    + by rewrite Hd2, Hd1, Hus, app_assoc.
    + assert (Hin' : Forall (λ s, s_url s ∈ usable_urls (d :: items)) new).
      { eapply Forall_impl; [exact Hin|]. intros s Hs. cbv beta.
        rewrite Hus. apply elem_of_app. by right. }
      destruct Hcase as [[-> Hi1]|(s & r & -> & Hi1 & Hrow & Htr1 & Hin1)].
      * exists new, rows. split_and!; try done. congruence.
      * exists (s :: new), (r :: rows).
        split_and!.
        -- by rewrite <- app_assoc.
        -- rewrite Hi2, Hi1. by rewrite <- app_assoc.
        -- by constructor.
        -- constructor; [|done]. by eapply transferred_mono.
        -- constructor; [|done]. rewrite Hus. apply elem_of_app. by left.
Qed.


Lemma insert_prompt_spec env p w row w1 :
  insert_prompt env p w = (Ok (MkResponse (Some row) None), w1) →
  prompts (db w1) = prompts (db w) ++ [row]
  ∧ images (db w1) = images (db w)
  ∧ bucket w1 = bucket w
  ∧ downloads (io w1) = downloads (io w)
  ∧ p_status row = default Pending (pi_status p)
  ∧ p_prompt row = pi_prompt p
  ∧ p_user_id row = pi_user_id p.
Proof.
  unfold insert_prompt, bind, issue, get, ret, set_db. simpl.
  destruct (fault (db w) (InsertPrompt p)); simpl; [done|].
  case_bool_decide; simpl; [done|].
  destruct (positive_or_null (pi_guidance_scale p)); simpl; [|done].
  intros [= <- <-]. simpl. rewrite downloads_app. simpl.
  by rewrite app_nil_r.
Qed.

Lemma generateImage_loop env params w promptRecord w1 response l :
  insert_prompt env (promptData_of params) w
  = (Ok (MkResponse (Some promptRecord) None), w1) →
  generate_api env (request_of params) = Responded response →
  ok (status response) = true →
  json response = Ok (MkApiData (Some l)) →
  l ≠ [] →
  ∃ saved rows w',
    generateImage env params w
    = (match saved with
       | [] => Throw (MkError "No images were successfully processed and saved")
       | _ => Ok (MkResult (p_id promptRecord) saved)
       end, w')
    ∧ prompts (db w') = prompts (db w1)
    ∧ images (db w') = images (db w1) ++ rows
    ∧ bucket w1 ⊆ bucket w'
    ∧ downloads (io w') = downloads (io w1) ++ usable_urls l
    ∧ Forall2 (row_of promptRecord (size_of params)) saved rows
    ∧ Forall (transferred env w') saved
    ∧ Forall (λ s, s_url s ∈ usable_urls l) saved.
Proof.
  intros Hins Hapi Hok Hjson Hl.
  unfold generateImage, try_catch. unfold bind at 1. rewrite Hins.
  cbn [error data]. unfold bind, print, issue. cbv beta iota.
  rewrite Hapi, Hok. cbn [negb]. rewrite Hjson. cbn [items].
  destruct l as [|d l']; [done|]. cbv beta iota.
  set (w2 := MkWorld _ _ _ _).
  destruct (process_images_spec env promptRecord (size_of params) (d :: l')
              0 [] w2)
    as (saved & w3 & -> & Hp & Hb & Hd & new & rows & Hsaved & Hi & Hrows
        & Htr & Hin).
  simpl in Hsaved. subst saved.
  assert (Hd' : downloads (io w3) = downloads (io w1) ++ usable_urls (d :: l')).
  { rewrite Hd. subst w2. cbn [io]. rewrite downloads_app. simpl.
    by rewrite app_nil_r. }
  destruct new as [|s new'].
  - apply Forall2_nil_inv_l in Hrows. subst rows.
    eexists [], [], _. cbn [length]. rewrite bool_decide_eq_true_2 by done.
    unfold throw. split; [reflexivity|]. cbn [db bucket io].
    split_and!; try done.
  - exists (s :: new'), rows, w3. cbn [length].
    rewrite bool_decide_eq_false_2 by done. unfold ret.
    split; [reflexivity|]. split_and!; try done.
Qed.



(** The paths of [generateImage] that leave after the API call without
    entering the loop: the prompt row stays, nothing else is written. *)
Lemma generateImage_leaves_early env params w promptRecord w1 response e :
  insert_prompt env (promptData_of params) w
  = (Ok (MkResponse (Some promptRecord) None), w1) →
  generate_api env (request_of params) = Responded response →
  (ok (status response) = false
   ∧ e = MkError ("Server error: " +:+ pretty (status response) +:+ " - "
                  +:+ text response))
  ∨ (ok (status response) = true ∧ json response = Throw e)
  ∨ (ok (status response) = true
     ∧ (json response = Ok (MkApiData None)
        ∨ json response = Ok (MkApiData (Some [])))
     ∧ e = MkError "No image data received from API") →
  ∃ w',
    generateImage env params w = (Throw e, w')
    ∧ prompts (db w') = prompts (db w1)
    ∧ images (db w') = images (db w1)
    ∧ bucket w' = bucket w1
    ∧ downloads (io w') = downloads (io w1).
Proof.
  intros Hins Hapi Hcase.
  unfold generateImage, try_catch. unfold bind at 1. rewrite Hins.
  cbn [error data]. unfold bind, print, issue, throw. cbv beta iota.
  rewrite Hapi.
  destruct Hcase as [[Hok ->]|[[Hok Hjson]|(Hok & Hjson & ->)]]; rewrite Hok;
    cbn [negb].
  - eexists. split; [reflexivity|]. cbn [db bucket io].
    rewrite downloads_app. simpl. by rewrite app_nil_r.
  - rewrite Hjson. eexists. split; [reflexivity|]. cbn [db bucket io].
    rewrite downloads_app. simpl. by rewrite app_nil_r.
  - destruct Hjson as [-> | ->]; cbn [items]; (eexists; split; [reflexivity|]);
      cbn [db bucket io]; rewrite downloads_app; simpl; by rewrite app_nil_r.
Qed.

(** C4, as the code has it. When the generation API has answered 2xx with
    a JSON body and the run has persisted no image row (the single URL
    whose download fails is the instance below), [generateImage] rejects
    with an error, "No images were successfully processed and saved" or,
    for a body without items, "No image data received from API". The
    prompt row created at the start is still there and still has the
    status it was created with, pending: the pipeline never writes a
    prompt's status. *)
Theorem no_output_rejects_and_prompt_stays_pending
    (env : Env) (params : GenerateImageParams) (w w1 : World)
    (promptRecord : Prompt) (response : ApiResponse) (body : ApiData) :
  insert_prompt env (promptData_of params) w
  = (Ok (MkResponse (Some promptRecord) None), w1) →
  generate_api env (request_of params) = Responded response →
  ok (status response) = true →
  json response = Ok body →
  images (db (snd (generateImage env params w))) = images (db w) →
  (fst (generateImage env params w)
   = Throw (MkError "No images were successfully processed and saved")
   ∨ fst (generateImage env params w)
     = Throw (MkError "No image data received from API"))
  ∧ prompts (db (snd (generateImage env params w)))
    = prompts (db w) ++ [promptRecord]
  ∧ p_status promptRecord = Pending.
Proof.
  intros Hins Hapi Hok Hjson Hzero.
  destruct (insert_prompt_spec env _ w promptRecord w1 Hins)
    as (Hp1 & Hi1 & _ & _ & Hst & _).
  destruct body as [[[|d l]|]].
  - destruct (generateImage_leaves_early env params w promptRecord w1
                response (MkError "No image data received from API")
                Hins Hapi) as (w' & -> & Hp & _);
      [right; right; split_and!; auto|].
    cbn [fst snd]. split_and!; [by right | congruence | done].
  - destruct (generateImage_loop env params w promptRecord w1 response
                (d :: l) Hins Hapi Hok Hjson)
      as (saved & rows & w' & Hrun & Hp & Hi & _ & _ & Hrows & _); [done|].
    rewrite Hrun in *. cbn [fst snd] in *.
    rewrite Hi, Hi1 in Hzero.
    assert (rows = []) as ->.
    { apply (app_inv_head (images (db w))). by rewrite app_nil_r. }
    apply Forall2_nil_inv_r in Hrows. subst saved.
    split_and!; [by left | congruence | done].
  - destruct (generateImage_leaves_early env params w promptRecord w1
                response (MkError "No image data received from API")
                Hins Hapi) as (w' & -> & Hp & _);
      [right; right; split_and!; auto|].
    cbn [fst snd]. split_and!; [by right | congruence | done].
Qed.

Lemma no_output_rejects_and_prompt_stays_pending_witness :
  (fst (generateImage Scenario.env_only_broken Scenario.fox
          Scenario.empty_world)
   = Throw (MkError "No images were successfully processed and saved")
   ∨ fst (generateImage Scenario.env_only_broken Scenario.fox
            Scenario.empty_world)
     = Throw (MkError "No image data received from API"))
  ∧ prompts
      (db (snd (generateImage Scenario.env_only_broken Scenario.fox
                  Scenario.empty_world)))
    = prompts (db Scenario.empty_world)
      ++ [Scenario.a_prompt "uuid-1" "user-1" 1700000000001]
  ∧ p_status (Scenario.a_prompt "uuid-1" "user-1" 1700000000001) = Pending.
Proof.
  apply (no_output_rejects_and_prompt_stays_pending Scenario.env_only_broken
           Scenario.fox Scenario.empty_world
           (snd (insert_prompt Scenario.env_only_broken
                   (promptData_of Scenario.fox) Scenario.empty_world))
           (Scenario.a_prompt "uuid-1" "user-1" 1700000000001)
           (MkApiResponse 200 "{...}"
              (Ok (MkApiData
                     (Some [MkImageData (Some "https://ark.example/a.png")]))))
           (MkApiData
              (Some [MkImageData (Some "https://ark.example/a.png")]))).
  - vm_compute. reflexivity.
  - reflexivity.
  - reflexivity.
  - reflexivity.
  - vm_compute. reflexivity.
Defined.

(** C4 as stated fails: the one URL cannot be downloaded, the call
    rejects and no image row is written, but the prompt row is left
    pending, not failed. *)
Lemma prompt_is_not_marked_failed_without_output :
  fst (generateImage Scenario.env_only_broken Scenario.fox
         Scenario.empty_world)
  = Throw (MkError "No images were successfully processed and saved")
  ∧ images
      (db (snd (generateImage Scenario.env_only_broken Scenario.fox
                  Scenario.empty_world))) = []
  ∧ p_status
      <$> prompts
            (db (snd (generateImage Scenario.env_only_broken Scenario.fox
                        Scenario.empty_world))) = [Pending]
  ∧ Failed
    ∉ p_status
        <$> prompts
              (db (snd (generateImage Scenario.env_only_broken Scenario.fox
                          Scenario.empty_world))).
Proof.
  split_and!; [vm_compute; reflexivity ..|].
  intros Hin. vm_compute in Hin. apply list_elem_of_singleton in Hin.
  discriminate.
Qed.

(** C5, as the code has it. When the generation API answers outside
    200..299, [generateImage] rejects with an error whose message carries
    the upstream status and body text as they came:
    "Server error: <status> - <text>". A 2xx body that is not JSON
    rejects with the parse error, and one without items with
    "No image data received from API". In each case the prompt row
    created at the start is still there, with the status it was created
    with, pending, and no image row is written and no download is
    attempted. *)
Theorem api_rejection_is_rethrown_and_prompt_stays_pending
    (env : Env) (params : GenerateImageParams) (w w1 : World)
    (promptRecord : Prompt) (response : ApiResponse) (e : Error) :
  insert_prompt env (promptData_of params) w
  = (Ok (MkResponse (Some promptRecord) None), w1) →
  generate_api env (request_of params) = Responded response →
  (ok (status response) = false
   ∧ e = MkError ("Server error: " +:+ pretty (status response) +:+ " - "
                  +:+ text response))
  ∨ (ok (status response) = true ∧ json response = Throw e)
  ∨ (ok (status response) = true
     ∧ (json response = Ok (MkApiData None)
        ∨ json response = Ok (MkApiData (Some [])))
     ∧ e = MkError "No image data received from API") →
  fst (generateImage env params w) = Throw e
  ∧ prompts (db (snd (generateImage env params w)))
    = prompts (db w) ++ [promptRecord]
  ∧ p_status promptRecord = Pending
  ∧ images (db (snd (generateImage env params w))) = images (db w)
  ∧ downloads (io (snd (generateImage env params w))) = downloads (io w).
Proof.
  intros Hins Hapi Hcase.
  destruct (insert_prompt_spec env _ w promptRecord w1 Hins)
    as (Hp1 & Hi1 & _ & Hd1 & Hst & _).
  destruct (generateImage_leaves_early env params w promptRecord w1 response
              e Hins Hapi Hcase) as (w' & -> & Hp & Hi & _ & Hd).
  cbn [fst snd]. split_and!; [done | congruence | done | congruence ..].
Qed.

Lemma api_rejection_is_rethrown_and_prompt_stays_pending_witness :
  fst (generateImage Scenario.env_bad_gateway Scenario.fox
         Scenario.empty_world)
  = Throw (MkError ("Server error: " +:+ pretty 502%nat +:+ " - "
                    +:+ "upstream unavailable"))
  ∧ prompts
      (db (snd (generateImage Scenario.env_bad_gateway Scenario.fox
                  Scenario.empty_world)))
    = prompts (db Scenario.empty_world)
      ++ [Scenario.a_prompt "uuid-1" "user-1" 0]
  ∧ p_status (Scenario.a_prompt "uuid-1" "user-1" 0) = Pending
  ∧ images
      (db (snd (generateImage Scenario.env_bad_gateway Scenario.fox
                  Scenario.empty_world)))
    = images (db Scenario.empty_world)
  ∧ downloads
      (io (snd (generateImage Scenario.env_bad_gateway Scenario.fox
                  Scenario.empty_world)))
    = downloads (io Scenario.empty_world).
Proof.
  apply (api_rejection_is_rethrown_and_prompt_stays_pending
           Scenario.env_bad_gateway Scenario.fox Scenario.empty_world
           (snd (insert_prompt Scenario.env_bad_gateway
                   (promptData_of Scenario.fox) Scenario.empty_world))
           (Scenario.a_prompt "uuid-1" "user-1" 0)
           (MkApiResponse 502 "upstream unavailable"
              (Throw (MkError "Unexpected token u in JSON")))).
  - vm_compute. reflexivity.
  - reflexivity.
  - left. split; reflexivity.
Defined.

(** C5 as stated fails: the API answers 502, the call rejects with the
    status and text, and the prompt row is left pending, not failed. *)
Lemma prompt_is_not_marked_failed_on_api_rejection :
  fst (generateImage Scenario.env_bad_gateway Scenario.fox
         Scenario.empty_world)
  = Throw (MkError "Server error: 502 - upstream unavailable")
  ∧ p_status
      <$> prompts
            (db (snd (generateImage Scenario.env_bad_gateway Scenario.fox
                        Scenario.empty_world))) = [Pending]
  ∧ Failed
    ∉ p_status
        <$> prompts
              (db (snd (generateImage Scenario.env_bad_gateway Scenario.fox
                          Scenario.empty_world))).
Proof.
  split_and!; [vm_compute; reflexivity ..|].
  intros Hin. vm_compute in Hin. apply list_elem_of_singleton in Hin.
  discriminate.
Qed.

(** C7, as the code has it. Every image row a run persists references the
    run's prompt row, which is in the prompts table, and holds the
    external URL in [url]; the row has no column for the storage URL and
    its [b64] is null. The storage URL lives in the result entry of the
    row only: entries and new rows correspond one to one, and an entry's
    [bucketUrl] is the public URL of an object that is in the bucket and
    holds the bytes downloaded, with a 2xx answer, from the entry's URL. *)
Theorem persisted_rows_reference_prompt_and_external_url
    (env : Env) (params : GenerateImageParams) (w w1 : World)
    (promptRecord : Prompt) (response : ApiResponse) (l : list ImageData) :
  insert_prompt env (promptData_of params) w
  = (Ok (MkResponse (Some promptRecord) None), w1) →
  generate_api env (request_of params) = Responded response →
  ok (status response) = true →
  json response = Ok (MkApiData (Some l)) →
  l ≠ [] →
  ∃ saved rows,
    images (db (snd (generateImage env params w))) = images (db w) ++ rows
    ∧ promptRecord ∈ prompts (db (snd (generateImage env params w)))
    ∧ Forall2
        (λ s r, i_prompt_id r = p_id promptRecord
                ∧ i_url r = s_url s
                ∧ i_id r = s_id s
                ∧ i_b64 r = None
                ∧ s_url s ∈ usable_urls l
                ∧ transferred env (snd (generateImage env params w)) s)
        saved rows
    ∧ (∀ result, fst (generateImage env params w) = Ok result →
       promptId result = p_id promptRecord ∧ r_images result = saved).
Proof.
  intros Hins Hapi Hok Hjson Hl.
  destruct (generateImage_loop env params w promptRecord w1 response l
              Hins Hapi Hok Hjson Hl)
    as (saved & rows & w' & -> & Hp & Hi & _ & _ & Hrows & Htr & Hin).
  destruct (insert_prompt_spec env _ w promptRecord w1 Hins)
    as (Hp1 & Hi1 & _).
  exists saved, rows. cbn [fst snd]. split_and!.
  - congruence.
  - rewrite Hp, Hp1. apply elem_of_app. right. by left.
  - clear Hi. induction Hrows as [|s r saved rows Hrow Hrows IH];
      [constructor|].
    apply Forall_cons in Htr as [Htr1 Htr]. apply Forall_cons in Hin as [Hin1 Hin].
    destruct Hrow as (? & ? & ? & ? & ? & ?).
    constructor; [by split_and!|]. by apply IH.
  - intros result. destruct saved; [done|]. by intros [= <-].
Qed.

Lemma persisted_rows_reference_prompt_and_external_url_witness :
  ∃ saved rows,
    images
      (db (snd (generateImage Scenario.env_one Scenario.fox
                  Scenario.empty_world)))
    = images (db Scenario.empty_world) ++ rows
    ∧ Scenario.a_prompt "uuid-1" "user-1" 1700000000001
      ∈ prompts
          (db (snd (generateImage Scenario.env_one Scenario.fox
                      Scenario.empty_world)))
    ∧ Forall2
        (λ s r,
           i_prompt_id r
           = p_id (Scenario.a_prompt "uuid-1" "user-1" 1700000000001)
           ∧ i_url r = s_url s
           ∧ i_id r = s_id s
           ∧ i_b64 r = None
           ∧ s_url s
             ∈ usable_urls [MkImageData (Some "https://ark.example/a.png")]
           ∧ transferred Scenario.env_one
               (snd (generateImage Scenario.env_one Scenario.fox
                       Scenario.empty_world)) s)
        saved rows
    ∧ (∀ result,
         fst (generateImage Scenario.env_one Scenario.fox
                Scenario.empty_world) = Ok result →
         promptId result
         = p_id (Scenario.a_prompt "uuid-1" "user-1" 1700000000001)
         ∧ r_images result = saved).
Proof.
  apply (persisted_rows_reference_prompt_and_external_url Scenario.env_one
           Scenario.fox Scenario.empty_world
           (snd (insert_prompt Scenario.env_one (promptData_of Scenario.fox)
                   Scenario.empty_world))
           (Scenario.a_prompt "uuid-1" "user-1" 1700000000001)
           (MkApiResponse 200 "{...}"
              (Ok (MkApiData
                     (Some [MkImageData (Some "https://ark.example/a.png")]))))).
  - vm_compute. reflexivity.
  - reflexivity.
  - reflexivity.
  - reflexivity.
  - discriminate.
Defined.

(** C7 as stated fails: one URL, everything works, and the row that is
    persisted holds the external URL but the storage URL of its result
    entry in none of its columns. *)
Lemma persisted_row_has_no_storage_url :
  s_bucketUrl
    <$> match fst (generateImage Scenario.env_one Scenario.fox
                     Scenario.empty_world) with
        | Ok result => r_images result
        | Throw _ => []
        end
  = ["https://cdn.example/images/uuid-1_1_1700000000003.png"]
  ∧ text_columns
      <$> images
            (db (snd (generateImage Scenario.env_one Scenario.fox
                        Scenario.empty_world)))
    = [["uuid-5"; "uuid-1"; "https://ark.example/a.png"; "1024x1024";
        "image/png"]]
  ∧ "https://cdn.example/images/uuid-1_1_1700000000003.png"
    ∉ ["uuid-5"; "uuid-1"; "https://ark.example/a.png"; "1024x1024";
       "image/png"].
Proof.
  split_and!; [vm_compute; reflexivity ..|].
  intros Hin. by repeat (apply elem_of_cons in Hin as [Hin|Hin]; [done|]);
    apply elem_of_nil in Hin.
Qed.

End Pipeline.

(** ** Validation of the prompt *)








(** * Further properties *)

Section Handler.
Import GenerateImageFn.

Lemma or_default_nonempty (x : option string) (d : string) :
  d ≠ "" → or_default x d ≠ "".
Proof.
  intros Hd. unfold or_default, falsy. destruct x as [s|]; [|done].
  by case_bool_decide.
Qed.

(** X1. The serverless function answers with a 2xx status in two cases
    only: the preflight request, with an empty body, and a POST with a
    prompt that is not empty, the API key configured and ModelArk having
    answered 2xx with JSON for a request carrying that prompt; the body is
    then ModelArk's JSON as it came. *)
Theorem handler_success_needs_upstream_success (srv : Server) (req : Req) :
  ok (res_status (handler srv req)) = true →
  (method req = "OPTIONS" ∧ handler srv req = MkRes 200 NoBody)
  ∨ (method req = "POST"
     ∧ ∃ prompt key up response d,
         b_prompt (body req) = Some prompt ∧ prompt ≠ ""
         ∧ ARK_API_KEY srv = Some key ∧ key ≠ ""
         ∧ u_prompt up = prompt
         ∧ modelark srv up = Responded response
         ∧ ok (status response) = true
         ∧ json response = Ok d
         ∧ handler srv req = MkRes 200 (JsonData d)).
Proof.
  unfold handler.
  case_bool_decide as Hopt; [intros _; by left|].
  case_bool_decide as Hpost; cbn [negb]; [|by intros [=]].
  destruct (b_prompt (body req)) as [prompt|] eqn:Hp; [|by intros [=]].
  destruct (falsy prompt) eqn:Hne; [by intros [=]|].
  destruct (ARK_API_KEY srv) as [key|] eqn:Hk; cbn [or_default];
    [|by intros [=]].
  destruct (falsy key) eqn:Hkey; [by intros [=]|].
  rewrite Hkey.
  match goal with |- context [modelark srv ?u] => set (up := u) end.
  destruct (modelark srv up) as [e|response] eqn:Hup; [by intros [=]|].
  destruct (ok (status response)) eqn:Hok; cbn [negb res_status];
    [|by rewrite Hok].
  destruct (json response) as [d|e] eqn:Hj; [|by intros [=]].
  intros _. right. split; [done|].
  exists prompt, key, up, response, d. split_and!; try done.
  - unfold falsy in Hne. by case_bool_decide.
  - unfold falsy in Hkey. by case_bool_decide.
Qed.

Lemma handler_success_needs_upstream_success_witness :
  (method (Cases.post "A red fox in snow") = "OPTIONS"
   ∧ handler Scenario.server (Cases.post "A red fox in snow")
     = MkRes 200 NoBody)
  ∨ (method (Cases.post "A red fox in snow") = "POST"
     ∧ ∃ prompt key up response d,
         b_prompt (body (Cases.post "A red fox in snow")) = Some prompt
         ∧ prompt ≠ ""
         ∧ ARK_API_KEY Scenario.server = Some key ∧ key ≠ ""
         ∧ u_prompt up = prompt
         ∧ modelark Scenario.server up = Responded response
         ∧ ok (status response) = true
         ∧ json response = Ok d
         ∧ handler Scenario.server (Cases.post "A red fox in snow")
           = MkRes 200 (JsonData d)).
Proof.
  apply (handler_success_needs_upstream_success Scenario.server
           (Cases.post "A red fox in snow")).
  vm_compute. reflexivity.
Defined.

(** X2. Whatever the body of the request leaves out, the function asks
    ModelArk only with a complete request: prompt, model and size not
    empty, a guidance scale that is not 0 and the response format "url".
    How ModelArk would answer any other request makes no difference to
    the function. *)
Theorem handler_sends_only_complete_requests
    (key : option string) (m1 m2 : Upstream → Fetched ApiResponse) (req : Req) :
  (∀ up, u_prompt up ≠ "" → u_model up ≠ "" → u_size up ≠ ""
         → u_guidance_scale up ≠ 0%Z → u_response_format up = "url"
         → m1 up = m2 up) →
  handler (MkServer key m1) req = handler (MkServer key m2) req.
Proof.
  intros Hm. unfold handler.
  case_bool_decide as Hopt; [done|].
  case_bool_decide as Hpost; cbn [negb]; [|done].
  destruct (b_prompt (body req)) as [prompt|] eqn:Hp; [|done].
  destruct (falsy prompt) eqn:Hne; [done|].
  assert (prompt ≠ "") by (unfold falsy in Hne; by case_bool_decide).
  cbn [ARK_API_KEY modelark].
  destruct (falsy (or_default key "")); [done|].
  rewrite Hm; [done|done|..].
  - cbn [u_model]. by apply or_default_nonempty.
  - cbn [u_size]. by apply or_default_nonempty.
  - cbn [u_guidance_scale].
    destruct (b_guidance_scale (body req)) as [g|]; [|done].
    by case_bool_decide.
  - done.
Qed.

Lemma handler_sends_only_complete_requests_witness :
  handler (MkServer (Some "ark-key") (modelark Scenario.server))
    (Cases.post "A red fox in snow")
  = handler (MkServer (Some "ark-key") Cases.picky)
      (Cases.post "A red fox in snow").
Proof.
  apply (handler_sends_only_complete_requests (Some "ark-key")
           (modelark Scenario.server) Cases.picky
           (Cases.post "A red fox in snow")).
  intros up _ Hmodel _ _ _. unfold Cases.picky.
  by rewrite bool_decide_eq_false_2.
Defined.
End Handler.

Section Pipeline2.
Import ImageApi Observed.

Lemma insert_prompt_cases env p w :
  ∃ x w1, insert_prompt env p w = (Ok x, w1)
    ∧ bucket w1 = bucket w
    ∧ images (db w1) = images (db w)
    ∧ videos (db w1) = videos (db w)
    ∧ fault (db w1) = fault (db w)
    ∧ ((error x ≠ None ∧ prompts (db w1) = prompts (db w))
       ∨ ∃ row, x = MkResponse (Some row) None).
Proof.
  unfold insert_prompt, bind, issue, get, ret, set_db. simpl.
  destruct (fault (db w) (InsertPrompt p)); simpl;
    [eexists _, _; split_and!; try done; by left|].
  case_bool_decide; simpl; [eexists _, _; split_and!; try done; by left|].
  destruct (positive_or_null (pi_guidance_scale p)); simpl;
    eexists _, _; (split; [reflexivity|]); simpl; split_and!; try done.
  - right. by eexists.
  - by left.
Qed.

Lemma insert_image_frame env i w :
  videos (db (snd (insert_image env i w))) = videos (db w)
  ∧ fault (db (snd (insert_image env i w))) = fault (db w).
Proof.
  unfold insert_image, bind, issue, get, ret, set_db. simpl.
  destruct (fault (db w) (InsertImage i)); simpl; [done|].
  destruct (positive_or_null (ii_file_size i)); simpl; [|done].
  by case_bool_decide.
Qed.

Lemma process_image_frame env pr size index d saved w :
  videos (db (snd (process_image env pr size index d saved w)))
  = videos (db w)
  ∧ fault (db (snd (process_image env pr size index d saved w)))
    = fault (db w).
Proof.
  unfold process_image.
  destruct (url d) as [u|]; [|done]. destruct (falsy u); [done|].
  unfold try_catch, save_image, bind, get. cbv beta.
  pose proof (downloadImageAsBlob_spec env u w) as [Hw1 _].
  destruct (downloadImageAsBlob env u w) as [[b|e] w1]; simpl in Hw1;
    cbv beta iota; [|by subst w1].
  set (fileName := fileName_of pr index (now env (length (io w1)))).
  pose proof (uploadImageToSupabase_spec env b fileName w1)
    as (Hdb2 & _).
  destruct (uploadImageToSupabase env b fileName w1) as [[bucketUrl|e] w2];
    simpl in Hdb2; cbv beta iota; [|simpl; rewrite Hdb2, Hw1; done].
  match goal with |- context [insert_image env ?i w2] =>
    pose proof (insert_image_frame env i w2) as [Hv3 Hf3];
    destruct (insert_image env i w2) as [[x|e] w3] end;
    simpl in Hv3, Hf3; cbv beta iota.
  - destruct (error x), (data x); simpl; rewrite Hv3, Hf3, Hdb2, Hw1; done.
  - simpl. rewrite Hv3, Hf3, Hdb2, Hw1. done.
Qed.

Lemma process_images_frame env pr size items : ∀ index saved w,
  videos (db (snd (process_images env pr size index items saved w)))
  = videos (db w)
  ∧ fault (db (snd (process_images env pr size index items saved w)))
    = fault (db w).
Proof.
  induction items as [|d items IH]; intros index saved w; [done|].
  cbn [process_images]. unfold bind.
  pose proof (process_image_frame env pr size index d saved w) as [Hv Hf].
  destruct (process_image_spec env pr size index d saved w)
    as (s1 & w1 & Heq & _).
  rewrite Heq in *. cbn [snd] in Hv, Hf.
  destruct (IH (S index) s1 w1) as [Hv' Hf']. split; congruence.
Qed.

(** The loop collects entries in the order of the items. *)
Lemma process_images_in_order env pr size items : ∀ index saved w,
  ∃ new,
    fst (process_images env pr size index items saved w) = Ok (saved ++ new)
    ∧ s_url <$> new `sublist_of` usable_urls items.
Proof.
  induction items as [|d items IH]; intros index saved w.
  - exists []. by rewrite app_nil_r.
  - cbn [process_images]. unfold bind.
    destruct (process_image_spec env pr size index d saved w)
      as (s1 & w1 & -> & _ & _ & _ & Hcase).
    destruct (IH (S index) s1 w1) as (new & Hnew & Hsub).
    assert (Hus : usable_urls (d :: items)
                  = usable_urls [d] ++ usable_urls items).
    { unfold usable_urls. by rewrite <- omap_app. }
    destruct Hcase as [[-> _]|(s & r & -> & _ & _ & _ & Hin)].
    + exists new. split; [done|]. rewrite Hus.
      by apply sublist_inserts_l.
    + exists (s :: new). split; [by rewrite Hnew, <- app_assoc|].
      rewrite Hus, fmap_cons.
      assert (usable_urls [d] = [s_url s]) as ->.
      { unfold usable_urls in *. simpl in *.
        destruct (url d) as [u|]; [|by apply elem_of_nil in Hin].
        destruct (falsy u); [by apply elem_of_nil in Hin|].
        by apply list_elem_of_singleton in Hin as ->. }
      by apply sublist_skip.
Qed.

(** [generateImage] from the loop on, once the prompt row is there and the
    API has answered with items. *)
Lemma generateImage_enters_loop env params w promptRecord w1 response l :
  insert_prompt env (promptData_of params) w
  = (Ok (MkResponse (Some promptRecord) None), w1) →
  generate_api env (request_of params) = Responded response →
  ok (status response) = true →
  json response = Ok (MkApiData (Some l)) →
  l ≠ [] →
  ∃ w2 saved w3 w',
    process_images env promptRecord (size_of params) 0 l [] w2
    = (Ok saved, w3)
    ∧ db w2 = db w1 ∧ bucket w2 = bucket w1
    ∧ generateImage env params w
      = (match saved with
         | [] => Throw (MkError
                          "No images were successfully processed and saved")
         | _ => Ok (MkResult (p_id promptRecord) saved)
         end, w')
    ∧ db w' = db w3 ∧ bucket w' = bucket w3.
Proof.
  intros Hins Hapi Hok Hjson Hl.
  unfold generateImage, try_catch. unfold bind at 1. rewrite Hins.
  cbn [error data]. unfold bind, print, issue. cbv beta iota.
  rewrite Hapi, Hok. cbn [negb]. rewrite Hjson. cbn [items].
  destruct l as [|d l']; [done|]. cbv beta iota.
  set (w2 := MkWorld _ _ _ _).
  destruct (process_images_spec env promptRecord (size_of params) (d :: l')
              0 [] w2) as (saved & w3 & Heq & _).
  exists w2, saved, w3. rewrite Heq.
  destruct saved as [|s saved']; cbn [length].
  - rewrite bool_decide_eq_true_2 by done. unfold throw.
    eexists. by split_and!.
  - rewrite bool_decide_eq_false_2 by done. unfold ret.
    eexists. by split_and!.
Qed.

(** Every way a run of [generateImage] can go, by what it leaves behind. *)
Lemma generateImage_summary env params w :
  ∃ res w' ps rows,
    generateImage env params w = (res, w')
    ∧ prompts (db w') = prompts (db w) ++ ps
    ∧ images (db w') = images (db w) ++ rows
    ∧ videos (db w') = videos (db w)
    ∧ fault (db w') = fault (db w)
    ∧ bucket w ⊆ bucket w'
    ∧ ((ps = [] ∧ rows = [] ∧ ∃ e, res = Throw e)
       ∨ ∃ pr saved,
           ps = [pr]
           ∧ p_user_id pr = g_userId params
           ∧ p_prompt pr = g_prompt params
           ∧ Forall2 (row_of pr (size_of params)) saved rows
           ∧ match saved with
             | [] => ∃ e, res = Throw e
             | _ => res = Ok (MkResult (p_id pr) saved)
             end).
Proof.
  destruct (insert_prompt_cases env (promptData_of params) w)
    as (x & w1 & Hins & Hb1 & Hi1 & Hv1 & Hf1 & Hcase).
  destruct Hcase as [[Herr Hp1]|[row ->]].
  { unfold generateImage, try_catch. unfold bind at 1. rewrite Hins.
    destruct (error x) as [pe|]; [|done]. unfold throw, bind, print.
    cbv beta iota. eexists _, _, [], []. split; [reflexivity|].
    cbn [db bucket]. rewrite !app_nil_r, Hb1. split_and!; try done.
    left. split_and!; try done. by eexists. }
  destruct (insert_prompt_spec env _ w row w1 Hins)
    as (Hp1 & _ & _ & _ & _ & Hpp & Hpu).
  assert (Hleave : ∀ e w',
    generateImage env params w = (Throw e, w') →
    prompts (db w') = prompts (db w1) → images (db w') = images (db w1) →
    videos (db w') = videos (db w1) → fault (db w') = fault (db w1) →
    bucket w' = bucket w1 →
    ∃ res w' ps rows,
      generateImage env params w = (res, w')
      ∧ prompts (db w') = prompts (db w) ++ ps
      ∧ images (db w') = images (db w) ++ rows
      ∧ videos (db w') = videos (db w)
      ∧ fault (db w') = fault (db w)
      ∧ bucket w ⊆ bucket w'
      ∧ ((ps = [] ∧ rows = [] ∧ ∃ e, res = Throw e)
         ∨ ∃ pr saved,
             ps = [pr]
             ∧ p_user_id pr = g_userId params
             ∧ p_prompt pr = g_prompt params
             ∧ Forall2 (row_of pr (size_of params)) saved rows
             ∧ match saved with
               | [] => ∃ e, res = Throw e
               | _ => res = Ok (MkResult (p_id pr) saved)
               end)).
  { intros e w' Heq Hp Hi Hv Hf Hb. exists (Throw e), w', [row], [].
    rewrite app_nil_r, Hb, Hb1. split_and!; try congruence; try done.
    right. exists row, [].
    split_and!; first [done | constructor | by eexists]. }
  destruct (generate_api env (request_of params)) as [ne|response] eqn:Hapi.
  { eapply (Hleave ne).
    - unfold generateImage, try_catch. unfold bind at 1. rewrite Hins.
      cbn [error data]. unfold bind, print, issue, throw. cbv beta iota.
      rewrite Hapi. reflexivity.
    - done.
    - done.
    - done.
    - done.
    - done. }
  assert (Hearly : ∀ e,
    (ok (status response) = false
     ∧ e = MkError ("Server error: " +:+ pretty (status response) +:+ " - "
                    +:+ text response))
    ∨ (ok (status response) = true ∧ json response = Throw e)
    ∨ (ok (status response) = true
       ∧ (json response = Ok (MkApiData None)
          ∨ json response = Ok (MkApiData (Some [])))
       ∧ e = MkError "No image data received from API") →
    ∃ w', generateImage env params w = (Throw e, w')
          ∧ prompts (db w') = prompts (db w1)
          ∧ images (db w') = images (db w1)
          ∧ videos (db w') = videos (db w1)
          ∧ fault (db w') = fault (db w1)
          ∧ bucket w' = bucket w1).
  { intros e Hc.
    unfold generateImage, try_catch. unfold bind at 1. rewrite Hins.
    cbn [error data]. unfold bind, print, issue, throw. cbv beta iota.
    rewrite Hapi.
    destruct Hc as [[Hok ->]|[[Hok Hjson]|(Hok & Hjson & ->)]]; rewrite Hok;
      cbn [negb].
    - eexists. split; [reflexivity|]. cbn [db bucket]. by split_and!.
    - rewrite Hjson. eexists. split; [reflexivity|]. cbn [db bucket].
      by split_and!.
    - destruct Hjson as [-> | ->]; cbn [items]; (eexists; split; [reflexivity|]);
        cbn [db bucket]; by split_and!. }
  destruct (ok (status response)) eqn:Hok.
  2: { destruct (Hearly _ (or_introl (conj eq_refl eq_refl)))
         as (w' & Heq & ? & ? & ? & ? & ?). by eapply Hleave. }
  destruct (json response) as [[[[|d l]|]]|je] eqn:Hjson.
  - destruct (Hearly (MkError "No image data received from API"))
      as (w' & Heq & ? & ? & ? & ? & ?); [by auto 10|]. by eapply Hleave.
  - destruct (generateImage_enters_loop env params w row w1 response
                (d :: l) Hins Hapi Hok Hjson)
      as (w2 & saved & w3 & w' & Hproc & Hdb2 & Hb2 & Heq & Hdb' & Hb');
      [done|].
    destruct (process_images_spec env row (size_of params) (d :: l) 0 [] w2)
      as (saved2 & w32 & Heq2 & Hp3 & Hb3 & _ & new & rows & Hs & Hi3
          & Hrows & _).
    rewrite Hproc in Heq2. injection Heq2 as <- <-.
    cbn [app] in Hs. subst new.
    pose proof (process_images_frame env row (size_of params) (d :: l) 0 []
                  w2) as [Hv3 Hf3].
    rewrite Hproc in Hv3, Hf3. cbn [snd] in Hv3, Hf3.
    eexists _, w', [row], rows. split; [exact Heq|].
    rewrite Hdb', Hb', Hp3, Hi3, Hv3, Hf3, Hdb2. split_and!; try congruence.
    + rewrite <- Hb1, <- Hb2. exact Hb3.
    + right. exists row, saved. split_and!; try done.
      destruct saved; [by eexists | done].
  - destruct (Hearly (MkError "No image data received from API"))
      as (w' & Heq & ? & ? & ? & ? & ?); [by auto 10|]. by eapply Hleave.
  - destruct (Hearly je) as (w' & Heq & ? & ? & ? & ? & ?); [by auto|].
    by eapply Hleave.
Qed.
End Pipeline2.

Section Pipeline3.
Import ImageApi Observed.

(** X5. A run of [generateImage] only adds: at most one prompt row, owned
    by the caller and holding the prompt as given; image rows after the
    existing ones; no change to the videos table; and every object that
    was in the bucket is still there, unchanged. *)
Theorem generateImage_only_appends
    (env : Env) (params : GenerateImageParams) (w : World) :
  (∃ ps, prompts (db (snd (generateImage env params w)))
         = prompts (db w) ++ ps
         ∧ (length ps ≤ 1)%nat
         ∧ Forall (λ p, p_user_id p = g_userId params
                        ∧ p_prompt p = g_prompt params) ps)
  ∧ (∃ rows, images (db (snd (generateImage env params w)))
             = images (db w) ++ rows)
  ∧ videos (db (snd (generateImage env params w))) = videos (db w)
  ∧ (∀ name b, bucket w !! name = Some b →
               bucket (snd (generateImage env params w)) !! name = Some b).
Proof.
  destruct (generateImage_summary env params w)
    as (res & w' & ps & rows & -> & Hp & Hi & Hv & _ & Hb & Hcase).
  cbn [snd]. split_and!.
  - exists ps. split; [done|].
    destruct Hcase as [(-> & _)|(pr & saved & -> & Hu & Hpp & _)].
    + split; [simpl; lia | constructor].
    + split; [simpl; lia|]. by repeat constructor.
  - by exists rows.
  - done.
  - intros name b Hn. by eapply lookup_weaken.
Qed.

Lemma generateImage_only_appends_witness :
  (∃ ps, prompts (db (snd (generateImage Scenario.env_one Scenario.fox
                             Cases.stocked)))
         = prompts (db Cases.stocked) ++ ps
         ∧ (length ps ≤ 1)%nat
         ∧ Forall (λ p, p_user_id p = g_userId Scenario.fox
                        ∧ p_prompt p = g_prompt Scenario.fox) ps)
  ∧ (∃ rows, images (db (snd (generateImage Scenario.env_one Scenario.fox
                                Cases.stocked)))
             = images (db Cases.stocked) ++ rows)
  ∧ videos (db (snd (generateImage Scenario.env_one Scenario.fox
                       Cases.stocked)))
    = videos (db Cases.stocked)
  ∧ (∀ name b, bucket Cases.stocked !! name = Some b →
               bucket (snd (generateImage Scenario.env_one Scenario.fox
                              Cases.stocked)) !! name = Some b).
Proof.
  exact (generateImage_only_appends Scenario.env_one Scenario.fox
           Cases.stocked).
Defined.

(** X6. A run keeps the images table referring to prompts that exist. *)
Theorem generateImage_keeps_references
    (env : Env) (params : GenerateImageParams) (w : World) :
  (∀ i, i ∈ images (db w) →
        ∃ p, p ∈ prompts (db w) ∧ p_id p = i_prompt_id i) →
  ∀ i, i ∈ images (db (snd (generateImage env params w))) →
       ∃ p, p ∈ prompts (db (snd (generateImage env params w)))
            ∧ p_id p = i_prompt_id i.
Proof.
  intros Hinv.
  destruct (generateImage_summary env params w)
    as (res & w' & ps & rows & -> & Hp & Hi & _ & _ & _ & Hcase).
  cbn [snd]. intros i. rewrite Hp, Hi. intros [Hold|Hnew]%elem_of_app.
  - destruct (Hinv i Hold) as (p & Hpin & Hpid). exists p.
    split; [|done]. apply elem_of_app. by left.
  - destruct Hcase as [(_ & -> & _)|(pr & saved & -> & _ & _ & Hrows & _)].
    + by apply elem_of_nil in Hnew.
    + exists pr. split; [apply elem_of_app; right; by left|].
      apply list_elem_of_lookup in Hnew as [k Hk].
      destruct (Forall2_lookup_r _ _ _ _ _ Hrows Hk)
        as (s & _ & (_ & _ & Hpid & _)).
      done.
Qed.

Lemma generateImage_keeps_references_witness :
  ∃ p, p ∈ prompts (db (snd (generateImage Scenario.env_one Scenario.fox
                               Cases.stocked)))
       ∧ p_id p
         = i_prompt_id
             (MkImage "uuid-5" "uuid-1" "https://ark.example/a.png"
                1700000000005 1700000000005 "1024x1024" None (Some 9%Z)
                (Some "image/png")).
Proof.
  apply (generateImage_keeps_references Scenario.env_one Scenario.fox
           Cases.stocked).
  - intros i Hi. cbn in Hi.
    apply elem_of_cons in Hi as [->|Hi].
    { exists (Scenario.a_prompt "p1" "user-1" 10).
      split; [by left|reflexivity]. }
    apply elem_of_cons in Hi as [->|Hi].
    { exists (Scenario.a_prompt "p3" "user-1" 30).
      split; [right; right; by left|reflexivity]. }
    apply list_elem_of_singleton in Hi as ->.
    exists (Scenario.a_prompt "p2" "user-2" 20).
    split; [right; by left|reflexivity].
  - vm_compute. do 3 right. left.
Defined.

(** X7. [generateImage] resolves only with images. *)
Theorem generateImage_resolves_with_images
    (env : Env) (params : GenerateImageParams) (w : World)
    (result : GeneratedImageResult) :
  fst (generateImage env params w) = Ok result →
  r_images result ≠ []
  ∧ ∃ pr rows,
      prompts (db (snd (generateImage env params w)))
      = prompts (db w) ++ [pr]
      ∧ promptId result = p_id pr
      ∧ p_user_id pr = g_userId params
      ∧ images (db (snd (generateImage env params w)))
        = images (db w) ++ rows
      ∧ length rows = length (r_images result)
      ∧ Forall2 (row_of pr (size_of params)) (r_images result) rows.
Proof.
  destruct (generateImage_summary env params w)
    as (res & w' & ps & rows & -> & Hp & Hi & _ & _ & _ & Hcase).
  cbn [fst snd]. intros ->.
  destruct Hcase as [(_ & _ & e & [=])
                    |(pr & saved & -> & Hu & _ & Hrows & Hres)].
  destruct saved as [|s saved']; [by destruct Hres|].
  injection Hres as ->. cbn [r_images promptId]. split; [done|].
  exists pr, rows. split_and!; try done.
  symmetry. by eapply Forall2_length.
Qed.

Lemma generateImage_resolves_with_images_witness :
  r_images Cases.two_of_three ≠ []
  ∧ ∃ pr rows,
      prompts (db (snd (generateImage Scenario.env_second_broken Scenario.fox
                          Scenario.empty_world)))
      = prompts (db Scenario.empty_world) ++ [pr]
      ∧ promptId Cases.two_of_three = p_id pr
      ∧ p_user_id pr = g_userId Scenario.fox
      ∧ images (db (snd (generateImage Scenario.env_second_broken
                           Scenario.fox Scenario.empty_world)))
        = images (db Scenario.empty_world) ++ rows
      ∧ length rows = length (r_images Cases.two_of_three)
      ∧ Forall2 (row_of pr (size_of Scenario.fox))
          (r_images Cases.two_of_three) rows.
Proof.
  apply (generateImage_resolves_with_images Scenario.env_second_broken
           Scenario.fox Scenario.empty_world Cases.two_of_three).
  vm_compute. reflexivity.
Defined.

Lemma omap_length_le {A B : Type} (f : A → option B) (l : list A) :
  (length (omap f l) ≤ length l)%nat.
Proof.
  induction l as [|a l IH]; [done|]. cbn [omap list_omap length].
  destruct (f a); simpl; lia.
Qed.

(** X8. The entries a run resolves with follow the order of the items the
    API answered with: their URLs are a subsequence of the URLs of the
    answer, so there are never more entries than items. *)
Theorem generateImage_keeps_order
    (env : Env) (params : GenerateImageParams) (w w1 : World)
    (promptRecord : Prompt) (response : ApiResponse) (l : list ImageData)
    (result : GeneratedImageResult) :
  insert_prompt env (promptData_of params) w
  = (Ok (MkResponse (Some promptRecord) None), w1) →
  generate_api env (request_of params) = Responded response →
  ok (status response) = true →
  json response = Ok (MkApiData (Some l)) →
  fst (generateImage env params w) = Ok result →
  s_url <$> r_images result `sublist_of` usable_urls l
  ∧ (length (r_images result) ≤ length l)%nat.
Proof.
  intros Hins Hapi Hok Hjson Hres.
  assert (Hl : l ≠ []).
  { intros ->.
    destruct (generateImage_leaves_early env params w promptRecord w1
                response (MkError "No image data received from API")
                Hins Hapi) as (w' & Heq & _); [by auto 10|].
    by rewrite Heq in Hres. }
  destruct (generateImage_enters_loop env params w promptRecord w1 response l
              Hins Hapi Hok Hjson Hl)
    as (w2 & saved & w3 & w' & Hproc & _ & _ & Heq & _).
  rewrite Heq in Hres. cbn [fst] in Hres.
  destruct (process_images_in_order env promptRecord (size_of params) l 0 []
              w2) as (new & Hnew & Hsub).
  rewrite Hproc in Hnew. cbn [fst app] in Hnew. injection Hnew as ->.
  destruct new as [|s new']; [done|]. injection Hres as <-.
  cbn [r_images]. split; [done|].
  apply sublist_length in Hsub. rewrite length_fmap in Hsub.
  etrans; [exact Hsub|]. apply omap_length_le.
Qed.

Lemma generateImage_keeps_order_witness :
  s_url <$> r_images Cases.two_of_three
  `sublist_of` usable_urls
                 ((λ u, MkImageData (Some u)) <$> Scenario.three_urls)
  ∧ (length (r_images Cases.two_of_three)
     ≤ length ((λ u, MkImageData (Some u)) <$> Scenario.three_urls))%nat.
Proof.
  apply (generateImage_keeps_order Scenario.env_second_broken Scenario.fox
           Scenario.empty_world
           (snd (insert_prompt Scenario.env_second_broken
                   (promptData_of Scenario.fox) Scenario.empty_world))
           (Scenario.a_prompt "uuid-1" "user-1" 1700000000001)
           (MkApiResponse 200 "{...}"
              (Ok (MkApiData
                     (Some ((λ u, MkImageData (Some u))
                              <$> Scenario.three_urls)))))).
  - vm_compute. reflexivity.
  - reflexivity.
  - reflexivity.
  - reflexivity.
  - vm_compute. reflexivity.
Defined.

(** X9. Whatever makes [generateImage] reject, the rejection is the last
    thing it writes to the console, with the error's message. *)
Theorem generateImage_logs_every_rejection
    (env : Env) (params : GenerateImageParams) (w : World) (e : Error) :
  fst (generateImage env params w) = Throw e →
  last (console (snd (generateImage env params w)))
  = Some (MkLine LError "Image generation failed:" (Some (err_message e))).
Proof.
  unfold generateImage, try_catch.
  match goal with |- context [match ?m w with _ => _ end] =>
    destruct (m w) as [[r|e'] w0] end.
  - done.
  - unfold bind, print, throw. cbn [fst snd console]. intros [= ->].
    apply last_snoc.
Qed.

Lemma generateImage_logs_every_rejection_witness :
  last (console (snd (generateImage Scenario.env_bad_gateway Scenario.fox
                        Scenario.empty_world)))
  = Some (MkLine LError "Image generation failed:"
            (Some (err_message
                     (MkError "Server error: 502 - upstream unavailable")))).
Proof.
  apply (generateImage_logs_every_rejection Scenario.env_bad_gateway
           Scenario.fox Scenario.empty_world
           (MkError "Server error: 502 - upstream unavailable")).
  vm_compute. reflexivity.
Defined.
End Pipeline3.

Section Polling2.
Import VideoContext.

Lemma resume_counts (db : Backend) (p : Poller) :
  (length (calls (resume db p)) ≤ S (length (calls p)))%nat
  ∧ (length (errors (resume db p)) ≤ S (length (errors p)))%nat
  ∧ (length (calls p) ≤ length (calls (resume db p)))%nat
  ∧ in_flight (resume db p) = in_flight p
  ∧ queries (resume db p) = queries p.
Proof.
  unfold resume, invoke, caught, clearInterval, setVideos.
  repeat case_match; simplify_eq; cbn; rewrite ?length_app; cbn;
    split_and!; (done || lia).
Qed.

Lemma step_counts (p : Poller) (ev : Event) :
  (length (calls p) + in_flight p ≤ queries p)%nat →
  (length (errors p) + in_flight p ≤ queries p)%nat →
  (length (calls (step p ev)) + in_flight (step p ev) ≤ queries (step p ev))%nat
  ∧ (length (errors (step p ev)) + in_flight (step p ev)
     ≤ queries (step p ev))%nat
  ∧ (queries (step p ev)
     ≤ queries p + (if ev is TimerFires then 1 else 0))%nat.
Proof.
  intros Hc He. destruct ev as [|db|]; cbn [step].
  - destruct (interval_set p); cbn; lia.
  - destruct (in_flight p) as [|n] eqn:Hn; [lia|].
    match goal with |- context [resume db ?q] =>
      pose proof (resume_counts db q) as (H1 & H2 & _ & H3 & H4) end.
    cbn [calls errors in_flight queries] in H1, H2, H3, H4. lia.
  - cbn. lia.
Qed.

(** X12. However the timer, the store and the caller interleave, every
    call of the callback and every logged error belongs to a query of its
    own that has been answered: calls plus suspended ticks never exceed
    the queries issued, nor do errors plus suspended ticks, and the
    queries never exceed the times the timer fired. *)
Theorem polling_counts (id : string) (cb : Callback) (vids : list Video)
    (evs : list Event) :
  let p := run (pollVideoStatus id cb vids) evs in
  (length (calls p) + in_flight p ≤ queries p)%nat
  ∧ (length (errors p) + in_flight p ≤ queries p)%nat
  ∧ (queries p ≤ VideoWrites.fired evs)%nat.
Proof.
  cbn zeta.
  assert (Hgen : ∀ evs p,
    (length (calls p) + in_flight p ≤ queries p)%nat →
    (length (errors p) + in_flight p ≤ queries p)%nat →
    (length (calls (run p evs)) + in_flight (run p evs)
     ≤ queries (run p evs))%nat
    ∧ (length (errors (run p evs)) + in_flight (run p evs)
       ≤ queries (run p evs))%nat
    ∧ (queries (run p evs)
       ≤ queries p + VideoWrites.fired evs)%nat).
  { clear. induction evs as [|ev evs IH]; intros p Hc He.
    - cbn. lia.
    - destruct (step_counts p ev Hc He) as (Hc' & He' & Hq).
      destruct (IH (step p ev) Hc' He') as (? & ? & ?).
      cbn [run foldl]. fold (run (step p ev) evs).
      split_and!; [done..|].
      unfold VideoWrites.fired. rewrite filter_cons.
      fold (VideoWrites.fired evs).
      destruct ev; case_decide; try done; cbn [length] in *;
        fold (VideoWrites.fired evs); lia. }
  destruct (Hgen evs (pollVideoStatus id cb vids)) as (? & ? & ?);
    [cbn; lia..|]. by split_and!.
Qed.

Lemma resume_local (db : Backend) (p : Poller) :
  v_id <$> local (resume db p) = v_id <$> local p.
Proof.
  assert (Hset : ∀ video q,
    v_id <$> local (setVideos video q) = v_id <$> local q).
  { intros video q. unfold setVideos. cbn [local]. rewrite <- list_fmap_compose.
    apply list_fmap_ext. intros i vid _. cbn. by case_bool_decide. }
  unfold resume.
  destruct (fst (getVideoById (videoId p) db)) as [[video|]|e]; [|done..].
  unfold invoke. destruct (onStatusChange (setVideos video p)) as [f|] eqn:Hf.
  - destruct (f video); cbn [caught clearInterval local];
      [|destruct (is_final _); cbn [clearInterval local]]; apply Hset.
  - destruct (is_final _); cbn [clearInterval local]; apply Hset.
Qed.

(** X13. Polling only refreshes videos the context already lists: after any
    events the local list has the same ids in the same places. *)
Theorem polling_keeps_the_listed_videos (p : Poller) (evs : list Event) :
  v_id <$> local (run p evs) = v_id <$> local p.
Proof.
  revert p. induction evs as [|ev evs IH]; intros p; [done|].
  cbn [run foldl]. fold (run (step p ev) evs). rewrite IH.
  destruct ev as [|db|]; cbn [step].
  - by destruct (interval_set p).
  - destruct (in_flight p); [done|]. by rewrite resume_local.
  - done.
Qed.

Lemma step_cleared_calls (p : Poller) (ev : Event) :
  interval_set p = false →
  (length (calls (step p ev)) + in_flight (step p ev)
   ≤ length (calls p) + in_flight p)%nat
  ∧ (length (calls p) ≤ length (calls (step p ev)))%nat.
Proof.
  intros Hc. destruct ev as [|db|]; cbn [step].
  - rewrite Hc. lia.
  - destruct (in_flight p) as [|n] eqn:Hn; [rewrite Hn; lia|].
    match goal with |- context [resume db ?q] =>
      pose proof (resume_counts db q) as (H1 & _ & H2 & H3 & _) end.
    cbn [calls in_flight] in H1, H2, H3. lia.
  - cbn. lia.
Qed.

(** X14. Clearing the interval does not recall the ticks already waiting
    for the store: after it, the callback can still be called, but at
    most once for each tick that was suspended at that moment. *)
Theorem cleared_poller_calls_at_most_the_suspended
    (p : Poller) (evs : list Event) :
  interval_set p = false →
  (length (calls p) ≤ length (calls (run p evs)))%nat
  ∧ (length (calls (run p evs)) ≤ length (calls p) + in_flight p)%nat.
Proof.
  revert p. induction evs as [|ev evs IH]; intros p Hc; [cbn; lia|].
  destruct (step_cleared p ev Hc) as [Hc' _].
  destruct (step_cleared_calls p ev Hc) as [H1 H2].
  destruct (IH (step p ev) Hc') as [H3 H4].
  cbn [run foldl]. fold (run (step p ev) evs). lia.
Qed.

Lemma cleared_poller_calls_at_most_the_suspended_witness :
  (length (calls (step Scenario.awaiting CleanupCalled))
   ≤ length
       (calls (run (step Scenario.awaiting CleanupCalled)
                 [StoreAnswers (Scenario.store Running); TimerFires;
                  StoreAnswers (Scenario.store Running)])))%nat
  ∧ (length
       (calls (run (step Scenario.awaiting CleanupCalled)
                 [StoreAnswers (Scenario.store Running); TimerFires;
                  StoreAnswers (Scenario.store Running)]))
     ≤ length (calls (step Scenario.awaiting CleanupCalled))
       + in_flight (step Scenario.awaiting CleanupCalled))%nat.
Proof.
  apply (cleared_poller_calls_at_most_the_suspended
           (step Scenario.awaiting CleanupCalled)
           [StoreAnswers (Scenario.store Running); TimerFires;
            StoreAnswers (Scenario.store Running)]).
  reflexivity.
Defined.
End Polling2.

Section Ui.
Import ImageApi Page.

Lemma refreshUserImages_frame (u : Ui) (w : World) :
  let '(_, (u', w')) := refreshUserImages (u, w) in
  user u' = user u ∧ prompt u' = prompt u
  ∧ generatedImages u' = generatedImages u ∧ alerts u' = alerts u
  ∧ loading u' = loading u ∧ error_ u' = error_ u ∧ progress u' = progress u
  ∧ db w' = db w ∧ bucket w' = bucket w ∧ io w' = io w.
Proof.
  unfold refreshUserImages. destruct (user u) as [id|] eqn:Hu;
    [|cbn; by split_and!].
  destruct (fst (ImageContext.getUserImages id 50 (db w))); cbn;
    by split_and!.
Qed.

Lemma generateImage_ok_images env params w result :
  fst (generateImage env params w) = Ok result → r_images result ≠ [].
Proof.
  destruct (generateImage_summary env params w)
    as (res & w' & ps & rows & -> & _ & _ & _ & _ & _ & Hcase).
  cbn [fst]. intros ->.
  destruct Hcase as [(_ & _ & e & [=])|(pr & saved & _ & _ & _ & _ & Hres)].
  destruct saved as [|s saved']; [by destruct Hres|]. by injection Hres as ->.
Qed.

(** X10. The hook's [generateImage] never rejects: a failure comes back as
    null with the error's message in the hook's state, a success as the
    result with no error; signed in, it always ends with loading off;
    signed out, it touches nothing outside the hook. A result it hands
    back has at least one image. *)
Theorem hook_reports_failure_as_null
    (env : Env) (p : string) (s : Settings) (u : Ui) (w : World) :
  let result := fst (hook_generateImage env p s (u, w)) in
  let u' := fst (snd (hook_generateImage env p s (u, w))) in
  let w' := snd (snd (hook_generateImage env p s (u, w))) in
  (result = None ↔ error_ u' ≠ None)
  ∧ (user u ≠ None → loading u' = false ∧ progress u' = ("idle", ""))
  ∧ (user u = None → w' = w)
  ∧ (∀ r, result = Some r → r_images r ≠ [])
  ∧ prompt u' = prompt u ∧ generatedImages u' = generatedImages u
  ∧ alerts u' = alerts u ∧ user u' = user u.
Proof.
  cbn zeta. unfold hook_generateImage.
  destruct (user u) as [id|] eqn:Hu; [|cbn; by split_and!].
  match goal with |- context [generateImage env ?ps w] =>
    pose proof (generateImage_ok_images env ps w) as Hres;
    destruct (generateImage env ps w) as [[r|e] w1] end.
  - match goal with |- context [refreshUserImages (?u1, w1)] =>
      pose proof (refreshUserImages_frame u1 w1) as Hfr;
      destruct (refreshUserImages (u1, w1)) as [[] [u2 w2]] end.
    destruct Hfr as (? & ? & ? & ? & ? & He & ? & _).
    cbn in *. split_and!; try done; try congruence.
    all: first [ by (split; [done|rewrite He])
               | by (intros r' [= <-]; apply (Hres r)) ].
  - cbn. split_and!; try done; try (split; [done|by intros _]).
Qed.

Lemma hook_reports_failure_as_null_witness :
  loading
    (fst (snd (hook_generateImage Scenario.env_bad_gateway "A red fox in snow"
                 (imageSettings Cases.fox_page)
                 (Cases.fox_page, Scenario.empty_world)))) = false
  ∧ error_
      (fst (snd (hook_generateImage Scenario.env_bad_gateway
                   "A red fox in snow" (imageSettings Cases.fox_page)
                   (Cases.fox_page, Scenario.empty_world)))) ≠ None
  ∧ snd (snd (hook_generateImage Scenario.env_one "A red fox in snow"
                (imageSettings Cases.signed_out_page)
                (Cases.signed_out_page, Scenario.empty_world)))
    = Scenario.empty_world.
Proof.
  pose proof (hook_reports_failure_as_null Scenario.env_bad_gateway
                "A red fox in snow" (imageSettings Cases.fox_page)
                Cases.fox_page Scenario.empty_world)
    as (Hnull & Hload & _).
  pose proof (hook_reports_failure_as_null Scenario.env_one
                "A red fox in snow" (imageSettings Cases.signed_out_page)
                Cases.signed_out_page Scenario.empty_world)
    as (_ & _ & Hout & _).
  split; [|split].
  - apply Hload. discriminate.
  - apply Hnull. vm_compute. reflexivity.
  - apply Hout. reflexivity.
Defined.

(** X11. What [handleGenerate] does with a prompt that is not blank. Signed
    in, it calls [generateImage] with the trimmed prompt and the page's
    settings; the typed prompt is cleared exactly when that call resolves
    (a result always has an image, so the page's length test never fails
    then) and is kept, with the error's message in the hook's state, when
    it rejects; either way loading ends and the tables are those the call
    left. An alert is shown only to a signed-out user, for whom nothing
    else happens. *)
Theorem handleGenerate_clears_prompt_only_on_success
    (env : Env) (u : Ui) (w : World) :
  let u' := fst (snd (handleGenerate env (u, w))) in
  let w' := snd (snd (handleGenerate env (u, w))) in
  (∀ id,
     user u = Some id → trim (prompt u) ≠ "" →
     let call :=
       generateImage env
         (MkParams (trim (prompt u)) (Some (st_model (imageSettings u)))
            (Some (st_size (imageSettings u)))
            (Some (st_guidance_scale (imageSettings u)))
            (Some (st_watermark (imageSettings u))) id) w in
     (∀ result, fst call = Ok result → prompt u' = "" ∧ error_ u' = None)
     ∧ (∀ e, fst call = Throw e →
          prompt u' = prompt u ∧ error_ u' = Some (err_message e))
     ∧ loading u' = false
     ∧ db w' = db (snd call) ∧ io w' = io (snd call))
  ∧ (alerts u' ≠ alerts u → user u = None ∧ w' = w).
Proof.
  cbn zeta. split.
  - intros id Hu Hne. unfold handleGenerate.
    replace (falsy (trim (prompt u))) with false
      by (symmetry; by apply bool_decide_eq_false).
    rewrite Hu. unfold hook_generateImage. cbn [set_hook user]. rewrite Hu.
    match goal with |- context [generateImage env ?ps w] =>
      pose proof (generateImage_ok_images env ps w) as Hres;
      destruct (generateImage env ps w) as [[r|e] w1] end.
    + match goal with |- context [refreshUserImages (?u1, w1)] =>
        pose proof (refreshUserImages_frame u1 w1) as Hfr;
        destruct (refreshUserImages (u1, w1)) as [[] [u2 w2]] end.
      destruct Hfr as (_ & _ & _ & _ & _ & He & _ & Hdb & _ & Hio).
      specialize (Hres r eq_refl).
      rewrite bool_decide_eq_true_2
        by (destruct (r_images r); [done|cbn; lia]).
      cbn in *. by split_and!.
    + cbn. split_and!; try done. by intros ? [= <-].
  - unfold handleGenerate. destruct (falsy (trim (prompt u))); [done|].
    destruct (user u) as [id|] eqn:Hu; [|done].
    unfold hook_generateImage. cbn [set_hook user]. rewrite Hu.
    match goal with |- context [generateImage env ?ps w] =>
      destruct (generateImage env ps w) as [[r|e] w1] end; [|by intros []].
    match goal with |- context [refreshUserImages (?u1, w1)] =>
      pose proof (refreshUserImages_frame u1 w1) as Hfr;
      destruct (refreshUserImages (u1, w1)) as [[] [u2 w2]] end.
    destruct Hfr as (_ & _ & _ & Ha & _).
    case_bool_decide; cbn in *; by rewrite Ha; intros [].
Qed.

Lemma handleGenerate_clears_prompt_only_on_success_witness :
  (prompt
     (fst (snd (handleGenerate Scenario.env_one
                  (Cases.fox_page, Scenario.empty_world)))) = ""
   ∧ error_
       (fst (snd (handleGenerate Scenario.env_one
                    (Cases.fox_page, Scenario.empty_world)))) = None)
  ∧ (prompt
       (fst (snd (handleGenerate Scenario.env_bad_gateway
                    (Cases.fox_page, Scenario.empty_world))))
     = prompt Cases.fox_page
     ∧ error_
         (fst (snd (handleGenerate Scenario.env_bad_gateway
                      (Cases.fox_page, Scenario.empty_world)))) ≠ None)
  ∧ user Cases.signed_out_page = None
  ∧ snd (snd (handleGenerate Scenario.env_one
                (Cases.signed_out_page, Scenario.empty_world)))
    = Scenario.empty_world.
Proof.
  pose proof (handleGenerate_clears_prompt_only_on_success Scenario.env_one
                Cases.fox_page Scenario.empty_world) as [Hone _].
  pose proof (handleGenerate_clears_prompt_only_on_success
                Scenario.env_bad_gateway Cases.fox_page Scenario.empty_world)
    as [Hbad _].
  pose proof (handleGenerate_clears_prompt_only_on_success Scenario.env_one
                Cases.signed_out_page Scenario.empty_world) as [_ Halert].
  split; [|split].
  - destruct (Hone "user-1") as (Hok & _); [reflexivity|by vm_compute|].
    destruct (fst (generateImage Scenario.env_one
                     (MkParams (trim (prompt Cases.fox_page))
                        (Some (st_model (imageSettings Cases.fox_page)))
                        (Some (st_size (imageSettings Cases.fox_page)))
                        (Some (st_guidance_scale
                                 (imageSettings Cases.fox_page)))
                        (Some (st_watermark (imageSettings Cases.fox_page)))
                        "user-1") Scenario.empty_world)) as [result|e] eqn:Hrun;
      [exact (Hok result eq_refl)|by vm_compute in Hrun].
  - destruct (Hbad "user-1") as (_ & Hthrow & _);
      [reflexivity|by vm_compute|].
    destruct (fst (generateImage Scenario.env_bad_gateway
                     (MkParams (trim (prompt Cases.fox_page))
                        (Some (st_model (imageSettings Cases.fox_page)))
                        (Some (st_size (imageSettings Cases.fox_page)))
                        (Some (st_guidance_scale
                                 (imageSettings Cases.fox_page)))
                        (Some (st_watermark (imageSettings Cases.fox_page)))
                        "user-1") Scenario.empty_world)) as [result|e] eqn:Hrun;
      [by vm_compute in Hrun|].
    destruct (Hthrow e eq_refl) as [Hkept Herr]. split; [exact Hkept|].
    rewrite Herr. discriminate.
  - apply Halert. vm_compute. discriminate.
Defined.
End Ui.

Section Tools.
Import ImageApi ImageApiTools.

(** X3. [testApiConnection] never rejects and writes neither to the
    database nor to storage: it posts one request, whose prompt is never
    empty, and resolves to success exactly when the API answered 2xx with
    at least one item; a failure always carries a message. *)
Theorem testApiConnection_never_rejects
    (env : Env) (prompt : string) (w : World) :
  ∃ r w',
    testApiConnection env prompt w = (Ok r, w')
    ∧ db w' = db w ∧ bucket w' = bucket w
    ∧ io w' = io w ++ [IoGenerate (test_request prompt)]
    ∧ rq_prompt (test_request prompt) ≠ ""
    ∧ (success r = true ↔
       ∃ response d l,
         generate_api env (test_request prompt) = Responded response
         ∧ ok (status response) = true
         ∧ json response = Ok d ∧ items d = Some l ∧ l ≠ [])
    ∧ (success r = true → t_error r = None ∧ t_data r ≠ None)
    ∧ (success r = false → t_error r ≠ None ∧ t_data r = None).
Proof.
  assert (Hne : rq_prompt (test_request prompt) ≠ "").
  { unfold test_request. cbn [rq_prompt]. by apply or_default_nonempty. }
  unfold testApiConnection, try_catch, bind, print, issue, throw, ret.
  cbv beta iota.
  destruct (generate_api env (test_request prompt)) as [e|response] eqn:Hapi.
  { eexists _, _. split; [reflexivity|]. cbn. split_and!; try done.
    split; [done|]. by intros (? & ? & ? & [=] & _). }
  destruct (ok (status response)) eqn:Hok; cbn [negb].
  2: { eexists _, _. split; [reflexivity|]. cbn. split_and!; try done.
       split; [done|]. intros (? & ? & ? & [= <-] & ? & _). congruence. }
  destruct (json response) as [[[[|d l]|]]|e] eqn:Hjson; cbn [items].
  - eexists _, _. split; [reflexivity|]. cbn. split_and!; try done.
    split; [done|].
    intros (? & ? & ? & [= <-] & _ & Hj & Hi & Hl). rewrite Hjson in Hj.
    injection Hj as <-. cbn in Hi. by injection Hi as <-.
  - eexists _, _. split; [reflexivity|]. cbn. split_and!; try done.
    split; [|done]. intros _. by exists response, (MkApiData (Some (d :: l))),
      (d :: l).
  - eexists _, _. split; [reflexivity|]. cbn. split_and!; try done.
    split; [done|].
    intros (? & ? & ? & [= <-] & _ & Hj & Hi & Hl). rewrite Hjson in Hj.
    injection Hj as <-. by cbn in Hi.
  - eexists _, _. split; [reflexivity|]. cbn. split_and!; try done.
    split; [done|].
    intros (? & ? & ? & [= <-] & _ & Hj & _). congruence.
Qed.

Lemma testApiConnection_never_rejects_witness :
  ∃ r, fst (testApiConnection Scenario.env_one "" Scenario.empty_world) = Ok r
       ∧ success r = true ∧ t_error r = None
       ∧ db (snd (testApiConnection Scenario.env_one "" Scenario.empty_world))
         = db Scenario.empty_world.
Proof.
  destruct (testApiConnection_never_rejects Scenario.env_one ""
              Scenario.empty_world)
    as (r & w' & Heq & Hdb & _ & _ & _ & Hiff & Hok & _).
  assert (Hs : success r = true).
  { apply Hiff.
    exists (MkApiResponse 200 "{...}"
              (Ok (MkApiData
                     (Some [MkImageData (Some "https://ark.example/a.png")])))),
      (MkApiData (Some [MkImageData (Some "https://ark.example/a.png")])),
      [MkImageData (Some "https://ark.example/a.png")].
    split_and!; [reflexivity..|discriminate]. }
  exists r. rewrite Heq. cbn [fst snd].
  split; [reflexivity|]. split; [exact Hs|]. split; [|exact Hdb].
  exact (proj1 (Hok Hs)).
Defined.

(** X4. Storing an image and deleting it again leaves the bucket as it
    was. *)
Theorem upload_then_delete_restores_the_bucket
    (env : Env) (b : Blob) (fileName : string) (w : World) (publicUrl : string) :
  fst (uploadImageToSupabase env b fileName w) = Ok publicUrl →
  publicUrl = public_url env fileName
  ∧ bucket (snd (uploadImageToSupabase env b fileName w)) !! fileName = Some b
  ∧ bucket
      (snd (deleteImageFromStorage None fileName
              (snd (uploadImageToSupabase env b fileName w))))
    = bucket w.
Proof.
  intros Hup.
  pose proof (uploadImageToSupabase_spec env b fileName w)
    as (_ & _ & _ & _ & H).
  destruct (H publicUrl Hup) as (-> & Hfresh & Hb).
  cbn zeta in Hb. split; [done|]. rewrite Hb.
  split; [apply lookup_insert_eq|].
  unfold deleteImageFromStorage, bind, get, set_bucket. cbn.
  rewrite Hb. by apply delete_insert_id.
Qed.

Lemma upload_then_delete_restores_the_bucket_witness :
  "https://cdn.example/images/a.png"
  = public_url Scenario.env_one "a.png"
  ∧ bucket
      (snd (uploadImageToSupabase Scenario.env_one Scenario.png "a.png"
              Scenario.empty_world)) !! "a.png" = Some Scenario.png
  ∧ bucket
      (snd (deleteImageFromStorage None "a.png"
              (snd (uploadImageToSupabase Scenario.env_one Scenario.png
                      "a.png" Scenario.empty_world))))
    = bucket Scenario.empty_world.
Proof.
  apply (upload_then_delete_restores_the_bucket Scenario.env_one Scenario.png
           "a.png" Scenario.empty_world "https://cdn.example/images/a.png").
  vm_compute. reflexivity.
Defined.
End Tools.

Section ContextWrites.
Import Mutations PromptWrites VideoWrites VideoContext.

Lemma insert_prompt_row env p w row w1 :
  insert_prompt env p w = (Ok (MkResponse (Some row) None), w1) →
  p_language row = default "en" (pi_language p)
  ∧ p_prompt row ≠ ""
  ∧ fault (db w1) = fault (db w)
  ∧ videos (db w1) = videos (db w).
Proof.
  unfold insert_prompt, bind, issue, get, ret, set_db. simpl.
  destruct (fault (db w) (InsertPrompt p)); simpl; [done|].
  case_bool_decide as Hlen; simpl; [done|].
  destruct (positive_or_null (pi_guidance_scale p)); simpl; [|done].
  intros [= <- <-]. simpl. split_and!; try done.
  intros Hp. apply Hlen. by rewrite Hp.
Qed.

Lemma eq_app {Row : Type} (column : Row → string) (value : string)
    (l1 l2 : list Row) :
  eq_ column value (l1 ++ l2) = eq_ column value l1 ++ eq_ column value l2.
Proof. apply filter_app. Qed.

Lemma createPrompt_cases env ctx prompt w :
  (∃ e w1, createPrompt env ctx prompt w = (Throw e, w1))
  ∨ ∃ r w1,
      insert_prompt env
        (MkPromptInsert (pi_user_id prompt) (pi_prompt prompt)
           (pi_model_used prompt) (pi_type prompt) (pi_size prompt)
           (pi_guidance_scale prompt)
           (Some (or_default (pi_language prompt) "en"))
           (Some (default Pending (pi_status prompt)))) w
      = (Ok (MkResponse (Some r) None), w1)
      ∧ createPrompt env ctx prompt w
        = (Ok (r, if bool_decide (authUser ctx = Some (p_user_id r))
                  then r :: local_prompts ctx else local_prompts ctx), w1).
Proof.
  unfold createPrompt, bind.
  match goal with |- context [insert_prompt env ?pd w] =>
    destruct (insert_prompt_cases env pd w)
      as (x & w1 & Hins & _ & _ & _ & _ & Hcase) end.
  rewrite Hins.
  destruct Hcase as [[Herr _]|[r ->]].
  - left. destruct (error x); [|done]. by eexists _, _.
  - right. exists r, w1. split; [done|]. cbn [error data].
    by case_bool_decide.
Qed.

(** X16. A prompt [createPrompt] resolves with is stored as the last row of
    the table, with a language that is never empty ("en" when none is
    given), the status given or else pending, and a prompt text that is
    not empty. It is put in front of the local list exactly when it
    belongs to the signed-in user. When the id the service gave it is new
    to the table, [getPromptById] finds it again. *)
Theorem createPrompt_is_found_again
    (env : Env) (ctx : Ctx) (prompt : PromptInsert) (w : World)
    (row : Prompt) (local' : list Prompt) :
  fst (createPrompt env ctx prompt w) = Ok (row, local') →
  prompts (db (snd (createPrompt env ctx prompt w)))
  = prompts (db w) ++ [row]
  ∧ p_language row ≠ ""
  ∧ p_status row = default Pending (pi_status prompt)
  ∧ p_user_id row = pi_user_id prompt
  ∧ p_prompt row = pi_prompt prompt ∧ p_prompt row ≠ ""
  ∧ local'
    = (if bool_decide (authUser ctx = Some (pi_user_id prompt))
       then row :: local_prompts ctx else local_prompts ctx)
  ∧ (fault (db w) SelectPrompts = None →
     (∀ p, p ∈ prompts (db w) → p_id p ≠ p_id row) →
     fst (PromptContext.getPromptById (p_id row)
            (db (snd (createPrompt env ctx prompt w))))
     = Ok (Some row)).
Proof.
  destruct (createPrompt_cases env ctx prompt w)
    as [(e & w1 & ->)|(r & w1 & Hins & ->)]; [done|].
  cbn [fst snd]. intros [= <- <-].
  destruct (insert_prompt_spec env _ w r w1 Hins)
    as (Hp & _ & _ & _ & Hst & Hpp & Hpu).
  destruct (insert_prompt_row env _ w r w1 Hins) as (Hl & Hne & Hf & _).
  cbn in Hst, Hpp, Hpu, Hl. rewrite Hpu.
  split_and!; try done.
  - rewrite Hl. by apply or_default_nonempty.
  - intros Hfault Hfresh.
    unfold PromptContext.getPromptById, single.
    rewrite Hf, Hfault, Hp, eq_app, (eq_nil p_id _ _ Hfresh). cbn.
    by rewrite decide_True.
Qed.

Lemma createPrompt_is_found_again_witness :
  prompts (db (snd (createPrompt Scenario.env_one Cases.signed_in
                      Cases.fox_insert Scenario.empty_world)))
  = prompts (db Scenario.empty_world)
    ++ [Scenario.a_prompt "uuid-1" "user-1" 1700000000001]
  ∧ p_language (Scenario.a_prompt "uuid-1" "user-1" 1700000000001) ≠ ""
  ∧ fst (PromptContext.getPromptById
           (p_id (Scenario.a_prompt "uuid-1" "user-1" 1700000000001))
           (db (snd (createPrompt Scenario.env_one Cases.signed_in
                       Cases.fox_insert Scenario.empty_world))))
    = Ok (Some (Scenario.a_prompt "uuid-1" "user-1" 1700000000001)).
Proof.
  destruct (createPrompt_is_found_again Scenario.env_one Cases.signed_in
              Cases.fox_insert Scenario.empty_world
              (Scenario.a_prompt "uuid-1" "user-1" 1700000000001)
              [Scenario.a_prompt "uuid-1" "user-1" 1700000000001])
    as (Hrows & Hlang & _ & _ & _ & _ & _ & Hget).
  { vm_compute. reflexivity. }
  split; [exact Hrows|]. split; [exact Hlang|].
  apply Hget; [reflexivity|]. intros p Hp. inversion Hp.
Defined.

Section UpdateRows.
Context {Row : Type} (id_of : Row → string) (id : string) (f : Row → Row).
Hypothesis f_keeps_id : ∀ r, id_of (f r) = id_of r.

Let g (r : Row) : Row := if bool_decide (id_of r = id) then f r else r.

Lemma update_rows_eq (rows : list Row) :
  eq_ id_of id (g <$> rows) = f <$> eq_ id_of id rows.
Proof.
  unfold eq_, g. induction rows as [|r rows IH]; [done|].
  rewrite fmap_cons, !filter_cons, IH. cbn beta.
  case_bool_decide as Hr; repeat case_decide; cbn in *;
    rewrite ?f_keeps_id in *; done.
Qed.

Lemma update_rows_others (rows : list Row) :
  filter (λ r, id_of r ≠ id) (g <$> rows) = filter (λ r, id_of r ≠ id) rows.
Proof.
  unfold g. induction rows as [|r rows IH]; [done|].
  rewrite fmap_cons, !filter_cons, IH. cbn beta.
  case_bool_decide as Hr; repeat case_decide; cbn in *;
    rewrite ?f_keeps_id in *; done.
Qed.

Lemma update_rows_ids (rows : list Row) :
  id_of <$> (g <$> rows) = id_of <$> rows.
Proof.
  rewrite <- list_fmap_compose. apply list_fmap_ext. intros i r _. cbn.
  unfold g. case_bool_decide; [apply f_keeps_id | done].
Qed.
End UpdateRows.

Lemma updateVideoStatus_found
    (t : Z) (local : list Video) (id : string) (st : video_status)
    (url errorMessage : option string) (db : Backend) (v : Video) :
  eq_ v_id id (videos db) = [v] →
  ∃ v' db' local',
    updateVideoStatus None t local id st url errorMessage db
    = (Ok v', (db', local'))
    ∧ v_id v' = id ∧ v_status v' = st ∧ v_updated_at v' = t
    ∧ v_url v' = match url with
                 | Some s => if falsy s then v_url v else Some s
                 | None => v_url v
                 end
    ∧ v_error_message v'
      = match errorMessage with
        | Some s => if falsy s then v_error_message v else Some s
        | None => v_error_message v
        end
    ∧ v_prompt_id v' = v_prompt_id v ∧ v_task_id v' = v_task_id v
    ∧ v_created_at v' = v_created_at v
    ∧ filter (λ x, v_id x ≠ id) (videos db')
      = filter (λ x, v_id x ≠ id) (videos db)
    ∧ v_id <$> videos db' = v_id <$> videos db
    ∧ prompts db' = prompts db ∧ images db' = images db
    ∧ local' = (λ vid, if bool_decide (v_id vid = id) then v' else vid)
                 <$> local
    ∧ (fault db SelectVideos = None →
       fst (getVideoById id db') = Ok (Some v')).
Proof.
  intros Hv. unfold updateVideoStatus, update_single. rewrite Hv.
  cbn [error data].
  assert (Hid : v_id v = id).
  { assert (Hin : v ∈ eq_ v_id id (videos db)) by (rewrite Hv; by left).
    unfold eq_ in Hin. by apply list_elem_of_filter in Hin as [? _]. }
  eexists _, _, _. split; [reflexivity|].
  cbn [v_id v_status v_updated_at v_url v_error_message v_prompt_id
       v_task_id v_created_at videos prompts images].
  split_and!; try done.
  + by apply (update_rows_others v_id id).
  + by apply (update_rows_ids v_id id).
  + by rewrite Hid.
  + intros Hf. unfold getVideoById, single. cbn [videos fault].
    rewrite Hf, (update_rows_eq v_id id) by done. by rewrite Hv.
Qed.

(** X17. [updateVideoStatus] on the one row with the id: the row gets the
    status and the time; its URL and error message are replaced only by
    an argument that is given and not empty, and kept otherwise; every
    other row, and the order of the table, stay as they were; the local
    list takes the new row in the place of the old; and [getVideoById]
    then resolves to the new row. On an id no row has, or when the
    service fails, it rejects and writes nothing. *)
Theorem updateVideoStatus_writes_one_row
    (t : Z) (local : list Video) (id : string) (st : video_status)
    (url errorMessage : option string) (db : Backend) :
  (∀ v, eq_ v_id id (videos db) = [v] →
     ∃ v' db' local',
       updateVideoStatus None t local id st url errorMessage db
       = (Ok v', (db', local'))
       ∧ v_id v' = id ∧ v_status v' = st ∧ v_updated_at v' = t
       ∧ v_url v' = match url with
                    | Some s => if falsy s then v_url v else Some s
                    | None => v_url v
                    end
       ∧ v_error_message v'
         = match errorMessage with
           | Some s => if falsy s then v_error_message v else Some s
           | None => v_error_message v
           end
       ∧ v_prompt_id v' = v_prompt_id v ∧ v_task_id v' = v_task_id v
       ∧ v_created_at v' = v_created_at v
       ∧ filter (λ x, v_id x ≠ id) (videos db')
         = filter (λ x, v_id x ≠ id) (videos db)
       ∧ v_id <$> videos db' = v_id <$> videos db
       ∧ prompts db' = prompts db ∧ images db' = images db
       ∧ local' = (λ vid, if bool_decide (v_id vid = id) then v' else vid)
                    <$> local
       ∧ (fault db SelectVideos = None →
          fst (getVideoById id db') = Ok (Some v')))
  ∧ (eq_ v_id id (videos db) = [] →
     updateVideoStatus None t local id st url errorMessage db
     = (Throw (MkError ("Failed to update video status: "
                        +:+ message not_single)), (db, local)))
  ∧ (∀ e, updateVideoStatus (Some e) t local id st url errorMessage db
          = (Throw (MkError ("Failed to update video status: "
                             +:+ message e)), (db, local))).
Proof.
  split_and!.
  - apply updateVideoStatus_found.
  - intros Hv. unfold updateVideoStatus, update_single. rewrite Hv.
    cbn. by destruct db.
  - intros e. unfold updateVideoStatus, update_single. cbn. by destruct db.
Qed.

Lemma updateVideoStatus_writes_one_row_witness :
  (∃ v' db' local',
     updateVideoStatus None 99 [Scenario.a_video Running] "vid-1" Succeeded
       None None (Scenario.store Running) = (Ok v', (db', local'))
     ∧ v_status v' = Succeeded
     ∧ v_url v' = v_url (Scenario.a_video Running)
     ∧ local' = [v']
     ∧ fst (getVideoById "vid-1" db') = Ok (Some v'))
  ∧ updateVideoStatus None 99 [] "vid-2" Succeeded None None
      (Scenario.store Running)
    = (Throw (MkError ("Failed to update video status: "
                       +:+ message not_single)),
       (Scenario.store Running, [])).
Proof.
  pose proof (updateVideoStatus_writes_one_row 99 [Scenario.a_video Running]
                "vid-1" Succeeded None None (Scenario.store Running))
    as (Hrow & _ & _).
  pose proof (updateVideoStatus_writes_one_row 99 [] "vid-2" Succeeded None
                None (Scenario.store Running)) as (_ & Hnone & _).
  split; [|apply Hnone; reflexivity].
  destruct (Hrow (Scenario.a_video Running) eq_refl)
    as (v' & db' & local' & Heq & Hid & Hst & _ & Hurl & _ & _ & _ & _ & _ & _
        & _ & _ & Hloc & Hget).
  exists v', db', local'. split; [exact Heq|]. split; [exact Hst|].
  split; [exact Hurl|]. split; [rewrite Hloc; reflexivity|].
  apply Hget. reflexivity.
Defined.

(** X18. Writing a final status ends the polling of that video: the next
    tick of a poller of the video that is answered from the written store
    calls the callback with the written row and clears the interval, and
    no query is issued after it. *)
Theorem final_status_write_ends_polling
    (t : Z) (local : list Video) (id : string) (st : video_status)
    (url errorMessage : option string) (db : Backend) (v : Video)
    (p : Poller) (f : Video → option Error) (evs : list Event) :
  eq_ v_id id (videos db) = [v] →
  is_final st = true →
  fault db SelectVideos = None →
  videoId p = id → (0 < in_flight p)%nat → onStatusChange p = Some f →
  ∃ v' db' local',
    updateVideoStatus None t local id st url errorMessage db
    = (Ok v', (db', local'))
    ∧ v_status v' = st
    ∧ calls (step p (StoreAnswers db')) = calls p ++ [v']
    ∧ interval_set (step p (StoreAnswers db')) = false
    ∧ queries (run (step p (StoreAnswers db')) evs) = queries p.
Proof.
  intros Hv Hfin Hf Hid Hfl Hcb.
  destruct (updateVideoStatus_found t local id st url errorMessage db v Hv)
    as (v' & db' & local' & Hrun & _ & Hst & _ & _ & _ & _ & _ & _ & _ & _
        & _ & _ & _ & Hget).
  specialize (Hget Hf).
  exists v', db', local'. split; [done|]. split; [done|].
  assert (Hstep : step p (StoreAnswers db')
    = (if f v' is Some e
       then caught e
       else clearInterval)
        (MkPoller (videoId p) (onStatusChange p) (interval_set p)
           (pred (in_flight p)) (queries p) (calls p ++ [v']) (errors p)
           ((λ vid, if bool_decide (v_id vid = v_id v') then v' else vid)
              <$> VideoContext.local p))).
  { cbn [step]. destruct (in_flight p) as [|n]; [lia|].
    unfold resume. cbn [videoId]. rewrite Hid, Hget.
    unfold invoke, setVideos. cbn [onStatusChange]. rewrite Hcb.
    cbn. destruct (f v'); [done|]. by rewrite Hst, Hfin. }
  rewrite Hstep.
  assert (Hc : interval_set ((if f v' is Some e then caught e
                              else clearInterval)
        (MkPoller (videoId p) (onStatusChange p) (interval_set p)
           (pred (in_flight p)) (queries p) (calls p ++ [v']) (errors p)
           ((λ vid, if bool_decide (v_id vid = v_id v') then v' else vid)
              <$> VideoContext.local p))) = false) by by destruct (f v').
  split_and!.
  - by destruct (f v').
  - done.
  - destruct (run_cleared evs _ Hc) as [_ ->]. by destruct (f v').
Qed.

Lemma final_status_write_ends_polling_witness :
  ∃ v' db' local',
    updateVideoStatus None 99 [] "vid-1" Succeeded (Some "https://x/v.mp4")
      None (Scenario.store Running) = (Ok v', (db', local'))
    ∧ v_status v' = Succeeded
    ∧ calls (step Scenario.awaiting (StoreAnswers db'))
      = calls Scenario.awaiting ++ [v']
    ∧ interval_set (step Scenario.awaiting (StoreAnswers db')) = false
    ∧ queries (run (step Scenario.awaiting (StoreAnswers db'))
                 (tick (Scenario.store Running)))
      = queries Scenario.awaiting.
Proof.
  apply (final_status_write_ends_polling 99 [] "vid-1" Succeeded
           (Some "https://x/v.mp4") None (Scenario.store Running)
           (Scenario.a_video Running) Scenario.awaiting (λ _, None)
           (tick (Scenario.store Running))).
  - reflexivity.
  - reflexivity.
  - reflexivity.
  - reflexivity.
  - vm_compute. lia.
  - reflexivity.
Defined.

(** X19. [deletePrompt] removes the prompt and, with it, the images and
    videos of the prompt, and nothing else; a table whose images all
    refer to existing prompts stays so; [getPromptById] then resolves to
    null; the local list loses the prompt; and deleting again changes
    nothing. When the service fails it rejects and nothing is removed. *)
Theorem deletePrompt_cascades (ctx : Ctx) (id : string) (db : Backend) :
  (∃ db' local',
     deletePrompt None ctx id db = (Ok (), (db', local'))
     ∧ (∀ p, p ∈ prompts db' ↔ p ∈ prompts db ∧ p_id p ≠ id)
     ∧ (∀ i, i ∈ images db' ↔ i ∈ images db ∧ i_prompt_id i ≠ id)
     ∧ (∀ v, v ∈ videos db' ↔ v ∈ videos db ∧ v_prompt_id v ≠ id)
     ∧ (∀ p, p ∈ local' ↔ p ∈ local_prompts ctx ∧ p_id p ≠ id)
     ∧ ((∀ i, i ∈ images db →
              ∃ p, p ∈ prompts db ∧ p_id p = i_prompt_id i) →
        ∀ i, i ∈ images db' →
             ∃ p, p ∈ prompts db' ∧ p_id p = i_prompt_id i)
     ∧ (fault db SelectPrompts = None →
        fst (PromptContext.getPromptById id db') = Ok None)
     ∧ deletePrompt None (MkCtx (authUser ctx) local') id db'
       = (Ok (), (db', local')))
  ∧ (∀ e, deletePrompt (Some e) ctx id db
          = (Throw (MkError ("Failed to delete prompt: " +:+ message e)),
             (db, local_prompts ctx))).
Proof.
  split; [|done].
  eexists _, _. split; [reflexivity|]. unfold delete_prompt.
  cbn [prompts images videos fault local_prompts].
  split_and!.
  - intros p. rewrite list_elem_of_filter. tauto.
  - intros i. rewrite list_elem_of_filter. tauto.
  - intros v. rewrite list_elem_of_filter. tauto.
  - intros p. rewrite list_elem_of_filter. tauto.
  - intros Hinv i [Hne Hi]%list_elem_of_filter.
    destruct (Hinv i Hi) as (p & Hp & Hpid). exists p. split; [|done].
    apply list_elem_of_filter. split; [congruence|done].
  - intros Hf. unfold PromptContext.getPromptById, single.
    cbn [prompts fault]. rewrite Hf.
    rewrite (eq_nil p_id id); [done|].
    by intros p [? _]%list_elem_of_filter.
  - unfold deletePrompt, delete_prompt.
    cbn [prompts images videos fault local_prompts].
    by rewrite !list_filter_filter, !(list_filter_iff _ _ _
      (λ x, conj (λ H, proj1 H) (λ H, conj H H))).
Qed.

Lemma deletePrompt_cascades_witness :
  ∃ db' local',
    deletePrompt None Cases.signed_in "p1" Scenario.history_store
    = (Ok (), (db', local'))
    ∧ fst (PromptContext.getPromptById "p1" db') = Ok None
    ∧ (∀ i, i ∈ images db' →
            ∃ p, p ∈ prompts db' ∧ p_id p = i_prompt_id i).
Proof.
  destruct (deletePrompt_cascades Cases.signed_in "p1" Scenario.history_store)
    as [(db' & local' & Heq & _ & _ & _ & _ & Hinv & Hget & _) _].
  exists db', local'. split; [exact Heq|]. split; [apply Hget; reflexivity|].
  apply Hinv. intros i Hi. cbn in Hi.
  apply elem_of_cons in Hi as [->|Hi].
  { exists (Scenario.a_prompt "p1" "user-1" 10). split; [by left|reflexivity]. }
  apply elem_of_cons in Hi as [->|Hi].
  { exists (Scenario.a_prompt "p3" "user-1" 30).
    split; [right; right; by left|reflexivity]. }
  apply list_elem_of_singleton in Hi as ->.
  exists (Scenario.a_prompt "p2" "user-2" 20).
  split; [right; by left|reflexivity].
Defined.

(** X20. Every prompt of a user is listed under exactly one type: with a
    limit that covers the table, the image prompts and the video prompts
    of [getPromptsByType] are together a rearrangement of the prompts of
    [getUserPrompts], and each list holds its type only. *)
Theorem prompts_by_type_split (db : Backend) (userId : string) (n : nat) :
  fault db SelectPrompts = None →
  (length (prompts db) ≤ n)%nat →
  ∃ imgs vids all,
    fst (getPromptsByType userId TImage n db) = Ok imgs
    ∧ fst (getPromptsByType userId TVideo n db) = Ok vids
    ∧ fst (PromptContext.getUserPrompts userId n db) = Ok all
    ∧ imgs ++ vids ≡ₚ all
    ∧ Forall (λ p, p_type p = TImage) imgs
    ∧ Forall (λ p, p_type p = TVideo) vids.
Proof.
  intros Hf Hn.
  unfold getPromptsByType, PromptContext.getUserPrompts, resolve, limit.
  rewrite Hf. cbn [error data fst default].
  set (U := eq_ p_user_id userId (prompts db)).
  assert (HU : (length U ≤ n)%nat).
  { etrans; [|exact Hn]. unfold U, eq_. apply length_filter. }
  assert (Hlen : ∀ l : list Prompt, l ≡ₚ U →
            take n (order p_created_at false l) = order p_created_at false l).
  { intros l Hl. apply take_ge. rewrite order_perm, Hl. done. }
  assert (Hsub : ∀ ty, (length (filter (λ p, p_type p = ty) U) ≤ n)%nat).
  { intros ty. etrans; [apply length_filter|done]. }
  eexists _, _, _. split_and!; [reflexivity..| | |].
  - rewrite !take_ge by (rewrite order_perm; first [apply Hsub | done]).
    rewrite !order_perm.
    rewrite <- (filter_app_complement (λ p, p_type p = TImage) U) at 3.
    apply Permutation_app; [done|].
    rewrite (list_filter_iff (λ p, p_type p = TVideo)
               (λ p, ¬ p_type p = TImage)); [done|].
    intros p. destruct (p_type p); split; done.
  - rewrite take_ge by (rewrite order_perm; apply Hsub).
    rewrite order_perm. apply Forall_forall.
    by intros p [? _]%list_elem_of_filter.
  - rewrite take_ge by (rewrite order_perm; apply Hsub).
    rewrite order_perm. apply Forall_forall.
    by intros p [? _]%list_elem_of_filter.
Qed.

Lemma prompts_by_type_split_witness :
  ∃ imgs vids all,
    fst (getPromptsByType "user-1" TImage 50 Scenario.history_store) = Ok imgs
    ∧ fst (getPromptsByType "user-1" TVideo 50 Scenario.history_store)
      = Ok vids
    ∧ fst (PromptContext.getUserPrompts "user-1" 50 Scenario.history_store)
      = Ok all
    ∧ imgs ++ vids ≡ₚ all
    ∧ Forall (λ p, p_type p = TImage) imgs
    ∧ Forall (λ p, p_type p = TVideo) vids.
Proof.
  apply (prompts_by_type_split Scenario.history_store "user-1" 50).
  - reflexivity.
  - vm_compute. lia.
Defined.
End ContextWrites.
